(** * nominal-garmin: the FIT-to-table decoder [fit_to_pandas]

    A shallow embedding of [fit_to_pandas] (src/nominal-garmin/__main__.py,
    lines 122-165) together with the fragments of Python, pandas and
    fitdecode that the function relies on, followed by the properties of
    the decoder.

    Layout:
    - [Py]   : exceptions, [str.find], lists of names, insertion-ordered
               dicts, the heap of list objects, binary64 floats;
    - [Pd]   : the part of pandas used by the decoder ([DataFrame],
               [concat], column access, [Series.apply]);
    - [Fit]  : frames and fields as the frame reader yields them;
    - the decoder itself;
    - [Cli]  : the functions of the command line ([init_garmin],
               [init_nominal], [cli], [list], [push]) over a world
               of token file, configuration, terminal and uploads;
    - the theory of the decoder, then of the command line. *)

From Stdlib Require Import ZArith List String Ascii Bool Lia SpecFloat.
Import ListNotations.

Local Open Scope string_scope.
Local Open Scope list_scope.
Local Open Scope Z_scope.

(* ================================================================== *)
(** * Python fragments *)
(* ================================================================== *)

Module Py.

(** ** Exceptions and the error monad

    The three exceptions that the decoder can raise on a well-formed
    frame sequence. *)
Inductive exn : Type :=
| KeyError (key : string)
| TypeError
| OverflowError.

Inductive result (A : Type) : Type :=
| Ok (a : A)
| Raise (e : exn).

Arguments Ok {A} a.
Arguments Raise {A} e.

Definition bind {A B} (c : result A) (k : A -> result B) : result B :=
  match c with
  | Ok a => k a
  | Raise e => Raise e
  end.

(** A Python [for] loop whose body may raise: the loop stops at the
    first exception. *)
Fixpoint for_each {S X} (body : S -> X -> result S) (xs : list X) (s : S)
  : result S :=
  match xs with
  | [] => Ok s
  | x :: xs' => bind (body s x) (for_each body xs')
  end.

(** Mapping a function that may raise over a list, left to right. *)
Fixpoint map_m {X Y} (f : X -> result Y) (xs : list X) : result (list Y) :=
  match xs with
  | [] => Ok []
  | x :: xs' =>
      bind (f x) (fun y => bind (map_m f xs') (fun ys => Ok (y :: ys)))
  end.

(** ** Strings *)

(** [s.find(sub)]: the lowest index at which [sub] occurs in [s], or
    [-1] when it does not occur. *)
Definition str_find (s sub : string) : Z :=
  match String.index 0 sub s with
  | Some n => Z.of_nat n
  | None => -1
  end.

(** [x in l] for a list of strings. *)
Definition list_in (x : string) (l : list string) : bool :=
  existsb (String.eqb x) l.

(** ** Dicts

    A Python [dict] keeps its keys in insertion order and holds each key
    once; assigning to an existing key keeps the key's position. *)
Definition dict (V : Type) : Type := list (string * V).

Fixpoint dict_get {V} (k : string) (d : dict V) : option V :=
  match d with
  | [] => None
  | (k', v) :: d' => if String.eqb k k' then Some v else dict_get k d'
  end.

Fixpoint dict_set {V} (k : string) (v : V) (d : dict V) : dict V :=
  match d with
  | [] => [(k, v)]
  | (k', v') :: d' =>
      if String.eqb k k' then (k', v) :: d' else (k', v') :: dict_set k v d'
  end.

Definition dict_keys {V} (d : dict V) : list string := map fst d.

(** ** The heap of list objects

    Python variables hold references.  The decoder creates its list with
    [check_list = good_list = []], which allocates one list object and
    binds both names to it; [append] mutates the object a name refers
    to.  The heap maps references to the current contents of the list
    objects. *)
Definition ref : Type := nat.

Record heap : Type := mkHeap {
  next : ref;
  contents : ref -> list string
}.

Definition empty_heap : heap := mkHeap 0%nat (fun _ => []).

(** [[]]: a new empty list object. *)
Definition new_list (h : heap) : ref * heap :=
  (next h,
   mkHeap (S (next h))
          (fun r => if Nat.eqb r (next h) then [] else contents h r)).

Definition deref (h : heap) (r : ref) : list string := contents h r.

(** [r.append(x)] *)
Definition append (r : ref) (x : string) (h : heap) : heap :=
  mkHeap (next h)
         (fun r' => if Nat.eqb r' r then contents h r ++ [x] else contents h r').

Arguments deref : simpl never.
Arguments append : simpl never.

(** ** Floats

    A Python [float] is an IEEE 754 binary64 number; rounding is to
    nearest, ties to even. *)
Definition prec : Z := 53.
Definition emax : Z := 1024.

Definition float : Type := spec_float.

Definition nan : float := S754_nan.

(** Conversion of an [int] to a [float], as done when an [int] meets a
    [float] in an arithmetic operation: correctly rounded, and
    [OverflowError] when the integer is too large. *)
Definition float_of_int (z : Z) : result float :=
  match binary_normalize prec emax z 0 false with
  | S754_infinity _ => Raise OverflowError
  | f => Ok f
  end.

(** [x / y] on floats, for a divisor that is not zero. *)
Definition float_div (x y : float) : float := SFdiv prec emax x y.

End Py.

Export Py.

Declare Scope py_scope.
Delimit Scope py_scope with py.
Notation "x <- c ;; k" := (bind c (fun x => k))
  (at level 61, c at next level, right associativity) : py_scope.
Notation "' pat <- c ;; k" := (bind c (fun x => match x with pat => k end))
  (at level 61, pat pattern, c at next level, right associativity) : py_scope.
Local Open Scope py_scope.

(* ================================================================== *)
(** * Scalars *)
(* ================================================================== *)

(** Modelled from the spec: the decoded value of a field is a
    "polymorphic scalar - integer, float, string, or timestamp"; the
    type belongs to the frame reader (fitdecode), which is not part of
    the repository.  A timestamp is kept as a number of seconds. *)
Inductive scalar : Type :=
| SInt (z : Z)
| SFloat (f : float)
| SStr (s : string)
| STimestamp (t : Z).

(** The marker pandas stores in a cell that has no value: the float
    NaN ([NaT] in a column of timestamps, which the model does not tell
    apart from NaN). *)
Definition NaN : scalar := SFloat nan.

(* ================================================================== *)
(** * pandas fragments *)
(* ================================================================== *)

Module Pd.

(** A [DataFrame] with a [RangeIndex]: the number of rows and the
    columns in order, each a name with one cell per row.  A cell holds
    the Python scalar that [Series.apply] hands to its function.  The
    storage type (dtype) of a column is not a field of the record: it
    is read off the cells ([column_dtype]). *)
Record DataFrame : Type := mkDataFrame {
  index : nat;
  data : list (string * list scalar)
}.

(** The storage types that decide whether pandas converts the cells of
    a column.  [Object] stands for every storage type that keeps each
    cell as it is: [object], and [datetime64] for timestamps. *)
Inductive dtype : Type := Int64 | UInt64 | Float64 | Object.

(** The storage type of a column of one cell: an [int] that fits is
    [int64], one from [2**63] up to [2**64 - 1] is [uint64], any other
    [int] is kept as an object; a [float], the missing marker included,
    is [float64]. *)
Definition dtype_of_cell (x : scalar) : dtype :=
  match x with
  | SInt z =>
      if (- 2 ^ 63 <=? z) && (z <? 2 ^ 63) then Int64
      else if (2 ^ 63 <=? z) && (z <? 2 ^ 64) then UInt64
      else Object
  | SFloat _ => Float64
  | SStr _ => Object
  | STimestamp _ => Object
  end.

(** The common storage type of two parts of a column: two different
    numeric types meet in [float64], anything else in [Object]. *)
Definition find_common_type (a b : dtype) : dtype :=
  match a, b with
  | Int64, Int64 => Int64
  | UInt64, UInt64 => UInt64
  | Object, _ => Object
  | _, Object => Object
  | _, _ => Float64
  end.

(** The storage type of a column, from its cells.  The cells tell it
    because a column that pandas does not hold as numbers keeps a cell
    that says so (a string, a timestamp, an integer out of range), and
    a column of floats holds no integer. *)
Definition column_dtype (cells : list scalar) : dtype :=
  match cells with
  | [] => Object
  | x :: cells' =>
      fold_left (fun d y => find_common_type d (dtype_of_cell y)) cells'
                (dtype_of_cell x)
  end.

(** A cell of a column that becomes [float64]: an [int] is converted to
    the nearest [float].  (The integers of such a column are below
    [2**64], so the conversion does not overflow.) *)
Definition as_float (x : scalar) : scalar :=
  match x with
  | SInt z =>
      match float_of_int z with
      | Ok f => SFloat f
      | Raise _ => x
      end
  | _ => x
  end.

(** The cells of a column stored under a storage type. *)
Definition astype (d : dtype) (cells : list scalar) : list scalar :=
  match d with
  | Float64 => map as_float cells
  | _ => cells
  end.

Definition columns (df : DataFrame) : list string := map fst (data df).

Definition column (df : DataFrame) (c : string) : option (list scalar) :=
  dict_get c (data df).

(** [pd.DataFrame([])] *)
Definition empty : DataFrame := mkDataFrame 0 [].

(** [pd.DataFrame([row_dict])]: one row, the keys of the dict as the
    columns, in the order of the dict. *)
Definition of_row (row_dict : dict scalar) : DataFrame :=
  mkDataFrame 1 (map (fun kv => (fst kv, [snd kv])) row_dict).

(** The cells of column [c] of [df] in a concatenation: the column
    where [df] has it, otherwise one missing marker per row of [df]. *)
Definition cells_or_missing (df : DataFrame) (c : string) : list scalar :=
  match column df c with
  | Some cells => cells
  | None => repeat NaN (index df)
  end.

(** [pd.concat([a, b], ignore_index=True)]: rows of [a] then rows of
    [b]; the columns are those of [a] followed by the new ones of [b]
    (outer join, no sorting).  Each column is stored under the common
    storage type of its two parts, a part that lacks the column being
    filled with missing markers: a column of integers that meets a
    missing marker or a float becomes a column of floats. *)
Definition concat (a b : DataFrame) : DataFrame :=
  let cols :=
    columns a ++ filter (fun c => negb (list_in c (columns a))) (columns b) in
  mkDataFrame (index a + index b)
    (map (fun c =>
            let cells := cells_or_missing a c ++ cells_or_missing b c in
            (c, astype (column_dtype cells) cells))
         cols).

(** [df[c]] *)
Definition getitem (df : DataFrame) (c : string) : result (list scalar) :=
  match column df c with
  | Some cells => Ok cells
  | None => Raise (KeyError c)
  end.

(** [df[c] = cells] *)
Definition setitem (df : DataFrame) (c : string) (cells : list scalar)
  : DataFrame :=
  mkDataFrame (index df) (dict_set c cells (data df)).

(** [series.apply(f)] *)
Definition apply (f : scalar -> result scalar) (series : list scalar)
  : result (list scalar) :=
  map_m f series.

End Pd.

(* ================================================================== *)
(** * Frames *)
(* ================================================================== *)

Module Fit.

(** Modelled from the spec: a field has a name and a decoded value; a
    data frame has a name and its fields in order.  The frame reader
    also yields frames that are not data messages (file header,
    definition messages, CRC). *)
Record Field : Type := mkField {
  field_name : string;
  field_value : scalar
}.

Inductive Frame : Type :=
| FitDataMessage (name : string) (fields : list Field)
| FitOther.

(** [frame.get_value(name)]: the value of the first field of the frame
    that carries the name; [KeyError] when there is none. *)
Fixpoint get_value (fields : list Field) (name : string) : result scalar :=
  match fields with
  | [] => Raise (KeyError name)
  | f :: fields' =>
      if String.eqb name (field_name f) then Ok (field_value f)
      else get_value fields' name
  end.

End Fit.

Import Fit.

(* ================================================================== *)
(** * The decoder *)
(* ================================================================== *)

(** The local variables of [fit_to_pandas] that change while the frames
    are read. *)
Record locals : Type := mkLocals {
  lists : heap;
  list_check : dict Z;
  df_activity : Pd.DataFrame
}.

(** Lines 135-139: the frame name is counted in [list_check].
    [list_check.get(name)] is [None] for a name that has no count, and
    [None + 1] raises [TypeError]. *)
Definition tally (check_list : ref) (name : string) (st : locals)
  : result locals :=
  if negb (list_in name (deref (lists st) check_list)) then
    Ok (mkLocals (append check_list name (lists st))
                 (dict_set name 1 (list_check st))
                 (df_activity st))
  else
    match dict_get name (list_check st) with
    | Some n =>
        Ok (mkLocals (lists st)
                     (dict_set name (n + 1) (list_check st))
                     (df_activity st))
    | None => Raise TypeError
    end.

(** Lines 146-152: the body of the loop over the fields of a record
    frame. *)
Definition field_step (good_list : ref) (fields : list Field)
    (acc : heap * dict scalar) (field : Field) : result (heap * dict scalar) :=
  let '(h, row_dict) := acc in
  if str_find (field_name field) "unknown" <? 0 then
    let h' :=
      if negb (list_in (field_name field) (deref h good_list))
         && (str_find (field_name field) "unknown" <? 0)
      then append good_list (field_name field) h
      else h in
    v <- get_value fields (field_name field) ;;
    Ok (h', dict_set (field_name field) v row_dict)
  else Ok acc.

(** Lines 133-157: the body of the loop over the frames. *)
Definition frame_step (check_list good_list : ref) (st : locals)
    (frame : Frame) : result locals :=
  match frame with
  | FitDataMessage name fields =>
      st1 <- tally check_list name st ;;
      if String.eqb name "record" then
        '(h, row_dict) <-
          for_each (field_step good_list fields) fields (lists st1, []) ;;
        Ok (mkLocals h (list_check st1)
                     (Pd.concat (df_activity st1) (Pd.of_row row_dict)))
      else Ok st1
  | FitOther => Ok st
  end.

(** [(2**32) / 360]: the true division of two integers; both are exact
    as floats, so the quotient is the float division of the two
    conversions. *)
Definition semicircles_per_degree : float :=
  match float_of_int (2 ^ 32), float_of_int 360 with
  | Ok a, Ok b => float_div a b
  | _, _ => nan
  end.

(** [lambda x: x / ((2**32) / 360)] *)
Definition to_degrees (x : scalar) : result scalar :=
  match x with
  | SInt z =>
      f <- float_of_int z ;;
      Ok (SFloat (float_div f semicircles_per_degree))
  | SFloat f => Ok (SFloat (float_div f semicircles_per_degree))
  | SStr _ => Raise TypeError
  | STimestamp _ => Raise TypeError
  end.

(** Lines 160-163: the body of the loop over the two position
    columns. *)
Definition normalize_column (df : Pd.DataFrame) (column : string)
  : result Pd.DataFrame :=
  series <- Pd.getitem df column ;;
  series' <- Pd.apply to_degrees series ;;
  Ok (Pd.setitem df column series').

Definition unit_normalizer (df : Pd.DataFrame) : result Pd.DataFrame :=
  for_each normalize_column ["position_lat"; "position_long"] df.

(** Lines 131-157 with the two list variables bound to [check_list] and
    [good_list]. *)
Definition read_frames (check_list good_list : ref) (h : heap)
    (file : list Frame) : result locals :=
  for_each (frame_step check_list good_list) file
           (mkLocals h [] Pd.empty).

(** [fit_to_pandas], on the frames that the reader yields for the
    bytes.  Line 124 allocates one list and binds both [check_list] and
    [good_list] to it. *)
Definition fit_to_pandas (file : list Frame) : result Pd.DataFrame :=
  let '(l, h) := new_list empty_heap in
  let check_list := l in
  let good_list := l in
  st <- read_frames check_list good_list h file ;;
  unit_normalizer (df_activity st).

(* ================================================================== *)
(** * Vocabulary of the properties *)
(* ================================================================== *)

(** The test of lines 146 and 149: the name does not contain the
    marker. *)
Definition is_known (name : string) : bool := str_find name "unknown" <? 0.

(** The fields of the data frames named "record", in the order of the
    file. *)
Fixpoint records (file : list Frame) : list (list Field) :=
  match file with
  | [] => []
  | FitDataMessage name fields :: file' =>
      if String.eqb name "record" then fields :: records file'
      else records file'
  | FitOther :: file' => records file'
  end.

(** The names of the fields of a frame that do not carry the marker, in
    the order of the frame. *)
Definition known_names (fields : list Field) : list string :=
  filter is_known (map field_name fields).

(** A list without its repetitions, each element at the place of its
    first occurrence. *)
Fixpoint first_seen (l : list string) : list string :=
  match l with
  | [] => []
  | x :: l' => x :: filter (fun y => negb (String.eqb y x)) (first_seen l')
  end.

(** The step that keeps a list of names in first-seen order: a name is
    appended unless it is already there. *)
Definition see (acc : list string) (x : string) : list string :=
  if list_in x acc then acc else acc ++ [x].

(** The dict that maps each of the keys, in order, to a value computed
    from the key. *)
Definition keyed {V} (g : string -> V) (keys : list string) : dict V :=
  map (fun k => (k, g k)) keys.

(** The cell that a record frame contributes to column [c]: the value
    of its field [c], and the missing marker when the frame has no such
    field or the name carries the marker. *)
Definition frame_cell (fields : list Field) (c : string) : scalar :=
  if is_known c then
    match get_value fields c with
    | Ok v => v
    | Raise _ => NaN
    end
  else NaN.

(** The row dict that lines 144-152 build for a record frame, in closed
    form (lemma [row_dict_built]). *)
Definition row_of (fields : list Field) : dict scalar :=
  map (fun n => (n, frame_cell fields n)) (first_seen (known_names fields)).

(** The table that lines 131-157 build from the record frames: the row
    of each record frame is appended in turn (lemma
    [read_frames_table]). *)
Definition table_of (rows : list (list Field)) : Pd.DataFrame :=
  fold_left (fun df fields => Pd.concat df (Pd.of_row (row_of fields)))
            rows Pd.empty.

(** How the table holds a value [x] that a frame contributes: as it is,
    or, for an integer in a column of floats, as the nearest float. *)
Definition stored_as (x y : scalar) : Prop :=
  y = x
  \/ exists z f, x = SInt z /\ float_of_int z = Ok f /\ y = SFloat f.

(** The state in which the loop over the frames ends, for the list
    object that line 124 creates. *)
Definition assembled (file : list Frame) : result locals :=
  let '(l, h) := new_list empty_heap in
  read_frames l l h file.

(** Whether a column is one of the two that the unit normalizer
    rescales. *)
Definition is_position (c : string) : bool :=
  String.eqb c "position_lat" || String.eqb c "position_long".

(** What the unit normalizer does to a cell [x] of column [c]: one
    application of [to_degrees] in the two position columns, nothing
    elsewhere. *)
Definition normalized (c : string) (x y : scalar) : Prop :=
  if is_position c then to_degrees x = Ok y else y = x.

(** The cell [y] that the decoded table holds for a value [x] that a
    frame contributes to column [c]: [x] rescaled once in the two
    position columns, [x] as the table stores it elsewhere. *)
Definition decoded (c : string) (x y : scalar) : Prop :=
  if is_position c then to_degrees x = Ok y else stored_as x y.

(** Values that [to_degrees] accepts: a float, or an integer below
    [2 ** 1023] in absolute value, which converts to a float. *)
Definition rescalable (x : scalar) : bool :=
  match x with
  | SInt z => Z.abs z <? 2 ^ 1023
  | SFloat _ => true
  | SStr _ => false
  | STimestamp _ => false
  end.

(** Every name in the list behind [check_list] has a count in
    [list_check]. *)
Definition counted (check_list : ref) (st : locals) : Prop :=
  forall n, In n (deref (lists st) check_list) ->
            dict_get n (list_check st) <> None.

(** Whether a frame is a data frame of the given name. *)
Definition frame_named (name : string) (frame : Frame) : bool :=
  match frame with
  | FitDataMessage name' _ => String.eqb name' name
  | FitOther => false
  end.

(** ** The decoder without the diagnostic tally

    [fit_to_pandas] with lines 135-139 removed. *)
Definition frame_step_no_tally (good_list : ref) (st : locals)
    (frame : Frame) : result locals :=
  match frame with
  | FitDataMessage name fields =>
      if String.eqb name "record" then
        '(h, row_dict) <-
          for_each (field_step good_list fields) fields (lists st, []) ;;
        Ok (mkLocals h (list_check st)
                     (Pd.concat (df_activity st) (Pd.of_row row_dict)))
      else Ok st
  | FitOther => Ok st
  end.

Definition fit_to_pandas_no_tally (file : list Frame)
  : result Pd.DataFrame :=
  let '(l, h) := new_list empty_heap in
  let good_list := l in
  st <- for_each (frame_step_no_tally good_list) file
                 (mkLocals h [] Pd.empty) ;;
  unit_normalizer (df_activity st).

(** ** The decoder with two list objects

    [fit_to_pandas] with line 124 replaced by [check_list = []] and
    [good_list = []]. *)
Definition fit_to_pandas_two_lists (file : list Frame)
  : result Pd.DataFrame :=
  let '(check_list, h1) := new_list empty_heap in
  let '(good_list, h2) := new_list h1 in
  st <- read_frames check_list good_list h2 file ;;
  unit_normalizer (df_activity st).

(** ** Sample inputs *)

(** 180.0, 0.0 and 142.0 *)
Definition float_180 : float := S754_finite false 6333186975989760 (-45).
Definition float_0 : float := S754_zero false.
Definition float_142 : float := S754_finite false 4996180836614144 (-45).

Definition gps_record : Frame :=
  FitDataMessage "record"
    [mkField "position_lat" (SInt 2147483648);
     mkField "position_long" (SInt 0)].

Definition event_frame (fields : list Field) : Frame :=
  FitDataMessage "event" fields.

(** Three record frames and one event frame, the event frame after the
    first [k] records. *)
Definition three_records_one_event (k : nat) (fields : list Field)
  : list Frame :=
  firstn k [gps_record; gps_record; gps_record]
  ++ event_frame fields
  :: skipn k [gps_record; gps_record; gps_record].

(** A file without record frames. *)
Definition session_and_laps : list Frame :=
  [FitDataMessage "session" []; FitDataMessage "lap" [];
   FitDataMessage "lap" []].

(** A record frame with a field named "lap", followed by a frame named
    "lap". *)
Definition record_then_lap : list Frame :=
  [FitDataMessage "record"
     [mkField "timestamp" (STimestamp 1000);
      mkField "position_lat" (SInt 2147483648);
      mkField "position_long" (SInt 0);
      mkField "lap" (SInt 1)];
   FitDataMessage "lap" [mkField "timestamp" (STimestamp 1001)]].

(** Two record frames, the second without heart rate, and a field that
    carries the marker. *)
Definition sparse_records : list Frame :=
  [FitDataMessage "record"
     [mkField "position_lat" (SInt 2147483648);
      mkField "unknown_87" (SInt 7);
      mkField "heart_rate" (SInt 142);
      mkField "position_long" (SInt 0)];
   FitDataMessage "session" [];
   FitDataMessage "record"
     [mkField "position_long" (SInt 0);
      mkField "position_lat" (SInt 2147483648)]].

(** A record frame without position fields. *)
Definition indoor_run : list Frame :=
  [FitDataMessage "record" [mkField "heart_rate" (SInt 142)]].

(** The state in which the loop over the frames of [indoor_run] ends. *)
Definition indoor_run_state : locals :=
  match assembled indoor_run with
  | Ok st => st
  | Raise _ => mkLocals empty_heap [] Pd.empty
  end.

(** The table decoded from [sparse_records]. *)
Definition sparse_table : Pd.DataFrame :=
  Pd.mkDataFrame 2
    [("position_lat", [SFloat float_180; SFloat float_180]);
     ("heart_rate", [SFloat float_142; NaN]);
     ("position_long", [SFloat float_0; SFloat float_0])].

(* ================================================================== *)
(** * The command line *)
(* ================================================================== *)

(** The rest of src/nominal-garmin/__main__.py: [init_garmin] (lines
    20-54), [init_nominal] (lines 57-66), [Clients] and [cli] (lines
    69-78), [list] (lines 81-97) and [push] (lines 100-119).  These
    functions talk to the token file, the terminal, Garmin Connect and
    Nominal; each of them is a computation over a [world] that holds
    the token file, the Nominal configuration, the lines still to be
    typed and the things done so far, and the two remote services are
    arguments. *)

Module Cli.

(** ** Values decoded from JSON *)

#[local] Unset Elimination Schemes.

Inductive json : Type :=
| JNone
| JBool (b : bool)
| JInt (z : Z)
| JFloat (f : float)
| JStr (s : string)
| JList (items : list json)
| JDict (items : dict json).

#[local] Set Elimination Schemes.

(** [v[key]] for a string key: only a dict can be indexed by a string,
    and a key that the dict lacks raises [KeyError]. *)
Definition subscript (v : json) (key : string) : result json :=
  match v with
  | JDict items =>
      match dict_get key items with
      | Some x => Ok x
      | None => Raise (KeyError key)
      end
  | _ => Raise TypeError
  end.

(** ** Exceptions and outcomes

    The exception classes that the functions name, [AttributeError] and
    [EOFError], the exceptions of the Python fragments above, and any
    other class by its name. *)
Inductive exn : Type :=
| FileNotFoundError
| GarthHTTPError
| GarminConnectAuthenticationError
| HTTPError
| NominalConfigError
| AttributeError
| EOFError
| Builtin (e : Py.exn)
| Other (name : string).

Inductive outcome (A : Type) : Type :=
| Return (a : A)
| Raised (e : exn).

Arguments Return {A} a.
Arguments Raised {A} e.

(** ** The services *)

(** A logged-in [Garmin] object: its [full_name] attribute, what
    [garth.dumps()] returns, the activities that [get_activities]
    returns, and the members of the archive that [download_activity]
    returns, each member as the frames that the frame reader yields
    for it. *)
Record Session : Type := mkSession {
  full_name : option string;
  dumps : string;
  get_activities : Z -> Z -> outcome (list json);
  download_activity : string -> outcome (list (list Frame))
}.

(** [Garmin().login(token)], [Garmin(email, password).login()] and
    [nominal.upload_pandas(df, name, ...)]. *)
Record services : Type := mkServices {
  token_login : string -> outcome Session;
  password_login : string -> string -> outcome Session;
  upload_pandas : Pd.DataFrame -> string -> outcome unit
}.

(** ** The world *)

(** The file ~/.garminconnect: its directory may not exist, the file
    may not exist, or the file holds a token. *)
Inductive token_store : Type :=
| NoDirectory
| NoFile
| TokenFile (content : string).

Inductive event : Type :=
| Printed (text : string)
| PrintedError (err : exn)
| PrintedTable (table : list (list json))
| Asked (prompt : string)
| AskedSecret (prompt : string)
| Uploaded (df : Pd.DataFrame) (name : string).

Record world : Type := mkWorld {
  store : token_store;
  config : option string;
  stdin : list string;
  events : list event
}.

(** A computation runs in a world and ends with a value or an
    exception; what it did before an exception stays done. *)
Definition M (A : Type) : Type := world -> outcome A * world.

Definition ret {A} (a : A) : M A := fun w => (Return a, w).

Definition raise {A} (e : exn) : M A := fun w => (Raised e, w).

Definition bindM {A B} (c : M A) (k : A -> M B) : M B :=
  fun w =>
    match c w with
    | (Return a, w') => k a w'
    | (Raised e, w') => (Raised e, w')
    end.

(** [try: body except caught: handler] *)
Definition try_except {A} (body : M A) (caught : exn -> bool)
    (handler : exn -> M A) : M A :=
  fun w =>
    match body w with
    | (Return a, w') => (Return a, w')
    | (Raised e, w') => if caught e then handler e w' else (Raised e, w')
    end.

Definition lift {A} (o : outcome A) : M A := fun w => (o, w).

Definition lift_py {A} (r : result A) : M A :=
  fun w =>
    match r with
    | Ok a => (Return a, w)
    | Raise e => (Raised (Builtin e), w)
    end.

Definition emit (e : event) : M unit :=
  fun w => (Return tt, mkWorld (store w) (config w) (stdin w) (events w ++ [e])).

(** Reading a line after showing a prompt; [EOFError] at the end of the
    input. *)
Definition read_line (shown : event) : M string :=
  fun w =>
    let w' := mkWorld (store w) (config w) (tl (stdin w)) (events w ++ [shown]) in
    match stdin w with
    | line :: _ => (Return line, w')
    | [] => (Raised EOFError, w')
    end.

(** [input(prompt)] and [getpass(prompt)] *)
Definition input (prompt : string) : M string := read_line (Asked prompt).
Definition getpass (prompt : string) : M string :=
  read_line (AskedSecret prompt).

(** [with open(dir_path, "r") as token_file: token_file.read()] *)
Definition read_token_file : M string :=
  fun w =>
    match store w with
    | TokenFile content => (Return content, w)
    | _ => (Raised FileNotFoundError, w)
    end.

(** [with open(dir_path, "w") as token_file: token_file.write(token)] *)
Definition write_token_file (token : string) : M unit :=
  fun w =>
    match store w with
    | NoDirectory => (Raised FileNotFoundError, w)
    | _ => (Return tt,
            mkWorld (TokenFile token) (config w) (stdin w) (events w))
    end.

(** [nominal._config.get_token(url)] and [set_token(url, token)].  The
    configuration is the file ~/.nominal.yml, in the directory of the
    token file: without the directory there is no configuration to
    read, and writing one raises [FileNotFoundError]. *)
Definition get_token : M string :=
  fun w =>
    match store w, config w with
    | NoDirectory, _ => (Raised NominalConfigError, w)
    | _, Some token => (Return token, w)
    | _, None => (Raised NominalConfigError, w)
    end.

Definition set_token (token : string) : M unit :=
  fun w =>
    match store w with
    | NoDirectory => (Raised FileNotFoundError, w)
    | _ => (Return tt,
            mkWorld (store w) (Some token) (stdin w) (events w))
    end.

(** A [for] loop whose body is a computation. *)
Fixpoint for_m {X} (xs : list X) (body : X -> M unit) : M unit :=
  match xs with
  | [] => ret tt
  | x :: xs' => bindM (body x) (fun _ => for_m xs' body)
  end.

End Cli.

Import Cli.

Notation "x <~ c ;; k" := (bindM c (fun x => k))
  (at level 61, c at next level, right associativity) : py_scope.
Notation "c ;; k" := (bindM c (fun _ => k))
  (at level 61, right associativity) : py_scope.

(** Lines 31 and 45-50: the exception classes of the two [except]
    clauses. *)
Definition caught_on_token_login (e : exn) : bool :=
  match e with
  | FileNotFoundError | GarthHTTPError | GarminConnectAuthenticationError =>
      true
  | _ => false
  end.

Definition caught_on_password_login (e : exn) : bool :=
  match e with
  | FileNotFoundError | GarthHTTPError | GarminConnectAuthenticationError
  | HTTPError => true
  | _ => false
  end.

(** Lines 20-54.  The function returns the logged-in object, or [None]
    from the inner [except] clause. *)
Definition init_garmin (sv : services) : M (option Session) :=
  try_except
    (token <~ read_token_file ;;
     garmin <~ lift (token_login sv token) ;;
     ret (Some garmin))
    caught_on_token_login
    (fun _ =>
       try_except
         (emit (Printed "Please enter your Garmin Connect credentials...") ;;
          email <~ input "E-mail: " ;;
          password <~ getpass "Password: " ;;
          garmin <~ lift (password_login sv email password) ;;
          let token := dumps garmin in
          write_token_file token ;;
          ret (Some garmin))
         caught_on_password_login
         (fun err =>
            emit (PrintedError err) ;;
            ret None)).

(** Lines 57-66.  The client that [get_default_client] builds is
    identified with the configured token it is built from. *)
Definition init_nominal : M string :=
  try_except
         (get_token ;; ret tt)
         (fun e => match e with NominalConfigError => true | _ => false end)
         (fun _ =>
            emit (Printed "Please enter your Nominal token...") ;;
            token <~ getpass "Token: " ;;
            set_token token) ;;
  get_token.

(** Lines 69-72 *)
Record Clients : Type := mkClients {
  garmin : option Session;
  nominal : string
}.

(** Lines 75-78: the arguments of [Clients] are evaluated from left to
    right. *)
Definition cli (sv : services) : M Clients :=
  g <~ init_garmin sv ;;
  n <~ init_nominal ;;
  ret (mkClients g n).

(** [ctx.obj.garmin.<attribute>]: [None] has none of the attributes of
    a [Garmin] object. *)
Definition garmin_attr (obj : Clients) : M Session :=
  match garmin obj with
  | Some g => ret g
  | None => raise AttributeError
  end.

(** Line 85 *)
Definition table_header : list json :=
  [JStr "Time"; JStr "Name"; JStr "Type"; JStr "ID"].

(** Lines 88-95: the row of one activity; the four subscripts are
    evaluated from left to right. *)
Definition activity_row (activity : json) : result (list json) :=
  time <- subscript activity "startTimeLocal" ;;
  name <- subscript activity "activityName" ;;
  type <- subscript activity "activityType" ;;
  key <- subscript type "typeKey" ;;
  id <- subscript activity "activityId" ;;
  Ok [time; name; key; id].

(** Lines 81-97, the command [list].  The text that [tabulate] makes of
    the table is not modelled: the command prints the table. *)
Definition list_command (obj : Clients) (count : Z) : M unit :=
  let table := [table_header] in
  g <~ garmin_attr obj ;;
  activities <~ lift (get_activities g 0 count) ;;
  table <~ lift_py
             (for_each (fun table activity =>
                          row <- activity_row activity ;;
                          Ok (table ++ [row]))
                       activities table) ;;
  emit (PrintedTable table).

(** [str(x)] for a string or [None] *)
Definition str (x : option string) : string :=
  match x with
  | Some s => s
  | None => "None"
  end.

(** [s.replace(old, new)] for one-character [old] and [new] *)
Fixpoint replace (old new : ascii) (s : string) : string :=
  match s with
  | EmptyString => EmptyString
  | String c s' =>
      String (if Ascii.eqb c old then new else c) (replace old new s')
  end.

(** Line 113 *)
Definition dataset_name (g : Session) (activity_id : string) : string :=
  (replace " " "_" (str (full_name g)) ++ "_" ++ activity_id)%string.

(** Lines 100-119, the command [push]. *)
Definition push (sv : services) (obj : Clients) (activity_id : string)
  : M unit :=
  g <~ garmin_attr obj ;;
  data <~ lift (download_activity g activity_id) ;;
  for_m data (fun file =>
    df <~ lift_py (fit_to_pandas file) ;;
    g' <~ garmin_attr obj ;;
    let name := dataset_name g' activity_id in
    lift (upload_pandas sv df name) ;;
    emit (Uploaded df name)).

(** The program run as [list --count n] and as [push activity_id]:
    click calls the group function [cli] and then the command with the
    object that [cli] has stored. *)
Definition main_list (sv : services) (count : Z) : M unit :=
  obj <~ cli sv ;;
  list_command obj count.

Definition main_push (sv : services) (activity_id : string) : M unit :=
  obj <~ cli sv ;;
  push sv obj activity_id.

(* ================================================================== *)
(** * Further vocabulary *)
(* ================================================================== *)

(** The names of the data frames of a file, in order. *)
Fixpoint frame_names (file : list Frame) : list string :=
  match file with
  | [] => []
  | FitDataMessage name _ :: file' => name :: frame_names file'
  | FitOther :: file' => frame_names file'
  end.

(** What [fit_to_pandas] looks at: the data frames, and of a data frame
    that is not named "record" the name only. *)
Fixpoint erase (file : list Frame) : list Frame :=
  match file with
  | [] => []
  | FitDataMessage name fields :: file' =>
      (if String.eqb name "record" then FitDataMessage name fields
       else FitDataMessage name [])
      :: erase file'
  | FitOther :: file' => erase file'
  end.

Definition is_number (x : scalar) : bool :=
  match x with
  | SInt _ | SFloat _ => true
  | SStr _ | STimestamp _ => false
  end.

Definition is_float (x : scalar) : bool :=
  match x with
  | SFloat _ => true
  | _ => false
  end.

(** Every name in the list behind [l] has a count or is one of
    [names]. *)
Definition counted_or (names : list string) (l : ref) (st : locals) : Prop :=
  forall n, In n (deref (lists st) l) ->
            dict_get n (list_check st) <> None \/ In n names.

(** ** Sample services and worlds *)

Definition sample_session : Session :=
  mkSession (Some "Ada Lovelace") "token-1"
    (fun _ _ =>
       Return [JDict [("startTimeLocal", JStr "2024-05-01 07:00:00");
                      ("activityName", JStr "Morning Run");
                      ("activityType", JDict [("typeKey", JStr "running")]);
                      ("activityId", JInt 42)]])
    (fun _ => Return [three_records_one_event 3 []; indoor_run]).

(** A service that knows one token and one password. *)
Definition sample_services : services :=
  mkServices
    (fun token =>
       if String.eqb token "token-1" then Return sample_session
       else Raised GarminConnectAuthenticationError)
    (fun email password =>
       if String.eqb password "secret" then Return sample_session
       else Raised GarthHTTPError)
    (fun _ _ => Return tt).

(** No token file yet, no Nominal token, and the user about to type an
    e-mail address, a password and a Nominal token. *)
Definition first_run (password : string) : world :=
  mkWorld NoFile None ["ada@example.org"; password; "nominal-token"] [].

(** The world after [init_garmin] in [first_run "secret"]. *)
Definition logged_in : world :=
  mkWorld (TokenFile "token-1") None ["nominal-token"]
    [Printed "Please enter your Garmin Connect credentials...";
     Asked "E-mail: "; AskedSecret "Password: "].

(** A service whose logins raise [HTTPError]. *)
Definition failing_services : services :=
  mkServices (fun _ => Raised HTTPError) (fun _ _ => Raised HTTPError)
             (fun _ _ => Return tt).

(** A service that rejects every stored token and whose login with a
    password raises [HTTPError]. *)
Definition expired_services : services :=
  mkServices (fun _ => Raised GarminConnectAuthenticationError)
             (fun _ _ => Raised HTTPError)
             (fun _ _ => Return tt).

(** A stored token, and the user about to type an e-mail address and a
    password. *)
Definition stale_token : world :=
  mkWorld (TokenFile "token-0") None ["ada@example.org"; "secret"] [].

(** A session whose archive holds two files with position fields. *)
Definition gps_session : Session :=
  mkSession (Some "Ada Lovelace") "token-2"
    (fun _ _ => Return [])
    (fun _ => Return [three_records_one_event 3 []; sparse_records]).

(** ** Vocabulary of [push] *)

(** The upload that [push] makes for a member of the archive. *)
Definition uploaded (sv : services) (name : string) (file : list Frame)
    (ev : event) : Prop :=
  exists df,
    fit_to_pandas file = Ok df
    /\ upload_pandas sv df name = Return tt
    /\ ev = Uploaded df name.

(** The member cannot be decoded, or its table cannot be uploaded. *)
Definition member_fails (sv : services) (name : string) (file : list Frame)
    (e : exn) : Prop :=
  (exists e', fit_to_pandas file = Raise e' /\ e = Builtin e')
  \/ (exists df,
        fit_to_pandas file = Ok df /\ upload_pandas sv df name = Raised e).

(** The keys that [list] reads in an activity. *)
Definition activity_keys : list string :=
  ["startTimeLocal"; "activityName"; "activityType"; "typeKey"; "activityId"].

(* ================================================================== *)
(** * Theory: Python fragments *)
(* ================================================================== *)

Section ErrorMonad.

Context {A B : Type}.

Lemma bind_ok (c : result A) (k : A -> result B) (b : B) :
  bind c k = Ok b -> exists a, c = Ok a /\ k a = Ok b.
Proof.
  destruct c as [a | e]; simpl; intros H.
  - exists a. split; [reflexivity | exact H].
  - discriminate H.
Qed.

End ErrorMonad.

Lemma map_m_forall2 {A B} (f : A -> result B) (xs : list A) (ys : list B) :
  map_m f xs = Ok ys -> Forall2 (fun x y => f x = Ok y) xs ys.
Proof.
  revert ys. induction xs as [| x xs IH]; simpl; intros ys H.
  - injection H as <-. constructor.
  - apply bind_ok in H. destruct H as (y & Hy & H).
    apply bind_ok in H. destruct H as (ys' & Hys & H).
    injection H as <-. constructor; auto.
Qed.

Lemma for_each_app {S X} (body : S -> X -> result S) (xs ys : list X) (s : S) :
  for_each body (xs ++ ys) s = bind (for_each body xs s) (for_each body ys).
Proof.
  revert s. induction xs as [| x xs IH]; simpl; intros s.
  - reflexivity.
  - destruct (body s x) as [s' | e]; simpl; auto.
Qed.

(** ** Membership *)

Lemma list_in_iff (x : string) (l : list string) :
  list_in x l = true <-> In x l.
Proof.
  unfold list_in. rewrite existsb_exists. split.
  - intros (y & Hy & Heq). apply String.eqb_eq in Heq. now subst.
  - intros H. exists x. split; [exact H | apply String.eqb_refl].
Qed.

Lemma list_in_false_iff (x : string) (l : list string) :
  list_in x l = false <-> ~ In x l.
Proof.
  rewrite <- list_in_iff. destruct (list_in x l); split; congruence.
Qed.

Lemma list_in_app (x : string) (l l' : list string) :
  list_in x (l ++ l') = list_in x l || list_in x l'.
Proof. unfold list_in. apply existsb_app. Qed.

(** ** First-seen order *)

Lemma filter_all {X} (p : X -> bool) (l : list X) :
  (forall x, In x l -> p x = true) -> filter p l = l.
Proof.
  induction l as [| x l IH]; simpl; intros H; [reflexivity |].
  rewrite (H x (or_introl eq_refl)). f_equal. apply IH. auto.
Qed.

Lemma filter_filter {X} (p q : X -> bool) (l : list X) :
  filter p (filter q l) = filter (fun x => q x && p x) l.
Proof.
  induction l as [| x l IH]; simpl; [reflexivity |].
  destruct (q x); simpl; [destruct (p x) |]; now rewrite IH.
Qed.

Lemma first_seen_In (x : string) (l : list string) :
  In x (first_seen l) <-> In x l.
Proof.
  induction l as [| y l IH]; simpl; [tauto |].
  rewrite filter_In, IH. split.
  - intros [H | [H _]]; auto.
  - intros [H | H]; auto.
    destruct (String.eqb_spec x y) as [-> | Hne]; auto.
Qed.

Lemma first_seen_NoDup (l : list string) : NoDup (first_seen l).
Proof.
  induction l as [| y l IH]; simpl; constructor.
  - rewrite filter_In. intros [_ H]. now rewrite String.eqb_refl in H.
  - now apply NoDup_filter.
Qed.

Lemma first_seen_id (l : list string) : NoDup l -> first_seen l = l.
Proof.
  induction 1 as [| x l Hx _ IH]; simpl; [reflexivity |].
  rewrite IH. f_equal. apply filter_all. intros y Hy.
  destruct (String.eqb_spec y x) as [-> | _]; [contradiction | reflexivity].
Qed.

(** Seeing the elements of [l] one by one, starting from [acc]. *)
Lemma fold_see (l acc : list string) :
  fold_left see l acc
  = acc ++ filter (fun c => negb (list_in c acc)) (first_seen l).
Proof.
  revert acc. induction l as [| x l IH]; intros acc; simpl.
  - now rewrite app_nil_r.
  - rewrite IH. unfold see. rewrite filter_filter.
    destruct (list_in x acc) eqn:Hx; simpl.
    + f_equal. apply filter_ext_in. intros y _.
      destruct (String.eqb_spec y x) as [-> | _]; simpl; [| reflexivity].
      now rewrite Hx.
    + rewrite <- app_assoc. simpl. do 2 f_equal.
      apply filter_ext. intros y. rewrite list_in_app. simpl.
      unfold list_in at 2. simpl. rewrite orb_false_r, negb_orb.
      apply andb_comm.
Qed.

Lemma first_seen_fold (l : list string) : first_seen l = fold_left see l [].
Proof.
  rewrite fold_see. simpl. symmetry. apply filter_all. reflexivity.
Qed.

Lemma first_seen_app (l l' : list string) :
  first_seen (l ++ l')
  = first_seen l
    ++ filter (fun c => negb (list_in c (first_seen l))) (first_seen l').
Proof.
  rewrite (first_seen_fold (l ++ l')), fold_left_app, <- first_seen_fold.
  apply fold_see.
Qed.

(** ** Dicts whose values are a function of the key *)

Section KeyedDict.

Context {V : Type} (g : string -> V).

Lemma keyed_keys (keys : list string) : dict_keys (keyed g keys) = keys.
Proof.
  unfold dict_keys, keyed. rewrite map_map. simpl. apply map_id.
Qed.

Lemma dict_get_keyed (c : string) (keys : list string) :
  dict_get c (keyed g keys) = if list_in c keys then Some (g c) else None.
Proof.
  induction keys as [| k keys IH]; simpl; [reflexivity |].
  destruct (String.eqb_spec c k) as [-> | _]; simpl; auto.
Qed.

Lemma dict_set_keyed (k : string) (keys : list string) :
  dict_set k (g k) (keyed g keys) = keyed g (see keys k).
Proof.
  unfold see. induction keys as [| k' keys IH]; simpl; [reflexivity |].
  destruct (String.eqb_spec k k') as [-> | _]; simpl; [reflexivity |].
  rewrite IH. destruct (list_in k keys); reflexivity.
Qed.

End KeyedDict.

(* ================================================================== *)
(** * Theory: the rows *)
(* ================================================================== *)

Lemma get_value_In (fields : list Field) (f : Field) :
  In f fields -> exists v, get_value fields (field_name f) = Ok v.
Proof.
  induction fields as [| f' fields IH]; simpl; [tauto |].
  intros H.
  destruct (String.eqb_spec (field_name f) (field_name f')) as [_ | Hne].
  - eauto.
  - destruct H as [-> | H]; [congruence | auto].
Qed.

Lemma frame_cell_In (fields : list Field) (f : Field) :
  In f fields -> is_known (field_name f) = true ->
  get_value fields (field_name f) = Ok (frame_cell fields (field_name f)).
Proof.
  intros Hin Hk. unfold frame_cell. rewrite Hk.
  destruct (get_value_In fields f Hin) as (v & ->). reflexivity.
Qed.

(** The loop over the fields, started in the middle of the frame. *)
Lemma field_loop (good_list : ref) (all fs : list Field) :
  (forall f, In f fs -> In f all) ->
  forall (h : heap) (keys : list string),
  exists h',
    for_each (field_step good_list all) fs (h, keyed (frame_cell all) keys)
    = Ok (h', keyed (frame_cell all) (fold_left see (known_names fs) keys)).
Proof.
  unfold known_names.
  induction fs as [| f fs IH]; intros Hall h keys; simpl.
  - eauto.
  - fold (is_known (field_name f)).
    destruct (is_known (field_name f)) eqn:Hk; simpl.
    + rewrite (frame_cell_In all f (Hall f (in_eq f fs)) Hk). simpl.
      rewrite dict_set_keyed. apply IH. intros f' Hf'. apply Hall, in_cons, Hf'.
    + apply IH. intros f' Hf'. apply Hall, in_cons, Hf'.
Qed.

(** Lines 144-152 build [row_of fields]. *)
Lemma row_dict_built (good_list : ref) (fields : list Field) (h : heap) :
  exists h',
    for_each (field_step good_list fields) fields (h, []) = Ok (h', row_of fields).
Proof.
  destruct (field_loop good_list fields fields (fun f H => H) h [])
    as (h' & H).
  exists h'. unfold row_of. rewrite first_seen_fold. exact H.
Qed.

Lemma row_of_keys (fields : list Field) :
  dict_keys (row_of fields) = first_seen (known_names fields).
Proof. apply keyed_keys. Qed.

Lemma known_names_In (fields : list Field) (c : string) :
  In c (known_names fields) <->
  is_known c = true /\ In c (map field_name fields).
Proof. unfold known_names. rewrite filter_In. tauto. Qed.

Lemma get_value_absent (fields : list Field) (c : string) :
  ~ In c (map field_name fields) -> get_value fields c = Raise (KeyError c).
Proof.
  induction fields as [| f fields IH]; simpl; intros H; [reflexivity |].
  destruct (String.eqb_spec c (field_name f)) as [-> | _]; [tauto |].
  apply IH. tauto.
Qed.

(** A frame contributes the missing marker to the columns it has no
    known field for. *)
Lemma frame_cell_absent (fields : list Field) (c : string) :
  ~ In c (known_names fields) -> frame_cell fields c = NaN.
Proof.
  rewrite known_names_In. unfold frame_cell. intros H.
  destruct (is_known c); [| reflexivity].
  rewrite get_value_absent; tauto.
Qed.

(* ================================================================== *)
(** * Theory: the table *)
(* ================================================================== *)

Lemma map_const {X Y} (f : X -> Y) (y : Y) (l : list X) :
  (forall x, In x l -> f x = y) -> map f l = repeat y (List.length l).
Proof.
  induction l as [| x l IH]; simpl; intros H; [reflexivity |].
  rewrite (H x (or_introl eq_refl)), IH; auto.
Qed.

Lemma Forall2_same {X} (R : X -> X -> Prop) (l : list X) :
  (forall x, R x x) -> Forall2 R l l.
Proof. intros H. induction l; constructor; auto. Qed.

Lemma Forall2_compose {X Y Z} (R : X -> Y -> Prop) (Q : Y -> Z -> Prop)
    (l : list X) (l' : list Y) (l'' : list Z) :
  Forall2 R l l' -> Forall2 Q l' l'' ->
  Forall2 (fun x z => exists y, R x y /\ Q y z) l l''.
Proof.
  intros H. revert l''. induction H as [| x y l l' Hxy _ IH]; intros l'' H'.
  - inversion H'. constructor.
  - inversion H' as [| y0 z l0 l1 Hyz Hrest]; subst.
    constructor; eauto.
Qed.

Lemma of_row_data (fields : list Field) :
  Pd.data (Pd.of_row (row_of fields))
  = keyed (fun c => [frame_cell fields c]) (first_seen (known_names fields)).
Proof.
  unfold Pd.of_row, row_of, keyed. simpl. now rewrite map_map.
Qed.

Lemma of_row_columns (fields : list Field) :
  Pd.columns (Pd.of_row (row_of fields)) = first_seen (known_names fields).
Proof. unfold Pd.columns. rewrite of_row_data. apply keyed_keys. Qed.

Lemma of_row_cells (fields : list Field) (c : string) :
  Pd.cells_or_missing (Pd.of_row (row_of fields)) c = [frame_cell fields c].
Proof.
  unfold Pd.cells_or_missing, Pd.column.
  rewrite of_row_data, dict_get_keyed.
  destruct (list_in c _) eqn:Hc; [reflexivity |].
  simpl. f_equal. symmetry. apply frame_cell_absent.
  apply list_in_false_iff in Hc. now rewrite first_seen_In in Hc.
Qed.

(** ** Concatenation *)

Lemma concat_data (a b : Pd.DataFrame) :
  Pd.data (Pd.concat a b)
  = keyed (fun c =>
             Pd.astype
               (Pd.column_dtype
                  (Pd.cells_or_missing a c ++ Pd.cells_or_missing b c))
               (Pd.cells_or_missing a c ++ Pd.cells_or_missing b c))
          (Pd.columns a
           ++ filter (fun c => negb (list_in c (Pd.columns a))) (Pd.columns b)).
Proof. reflexivity. Qed.

Lemma concat_columns (a b : Pd.DataFrame) :
  Pd.columns (Pd.concat a b)
  = Pd.columns a
    ++ filter (fun c => negb (list_in c (Pd.columns a))) (Pd.columns b).
Proof.
  unfold Pd.columns at 1. rewrite concat_data.
  apply (keyed_keys
           (fun c =>
              Pd.astype
                (Pd.column_dtype
                   (Pd.cells_or_missing a c ++ Pd.cells_or_missing b c))
                (Pd.cells_or_missing a c ++ Pd.cells_or_missing b c))).
Qed.

Lemma concat_column (a b : Pd.DataFrame) (c : string) :
  Pd.column (Pd.concat a b) c
  = if list_in c (Pd.columns (Pd.concat a b))
    then Some (Pd.astype
                 (Pd.column_dtype
                    (Pd.cells_or_missing a c ++ Pd.cells_or_missing b c))
                 (Pd.cells_or_missing a c ++ Pd.cells_or_missing b c))
    else None.
Proof.
  rewrite concat_columns. unfold Pd.column. rewrite concat_data.
  apply (dict_get_keyed
           (fun c =>
              Pd.astype
                (Pd.column_dtype
                   (Pd.cells_or_missing a c ++ Pd.cells_or_missing b c))
                (Pd.cells_or_missing a c ++ Pd.cells_or_missing b c))).
Qed.

(** ** Stored cells *)

Lemma stored_as_refl (x : scalar) : stored_as x x.
Proof. now left. Qed.

Lemma stored_as_float (x y : scalar) :
  stored_as x y -> stored_as x (Pd.as_float y).
Proof.
  intros [-> | (z & f & -> & Hf & ->)].
  - destruct x as [z | f | s | t]; simpl; try apply stored_as_refl.
    destruct (float_of_int z) as [f | e] eqn:Hf; [| apply stored_as_refl].
    right. eauto.
  - right. simpl. eauto.
Qed.

(** Storing a column under a storage type keeps every cell, up to the
    conversion of an integer to a float. *)
Lemma astype_stored (d : Pd.dtype) (raw cells : list scalar) :
  Forall2 stored_as raw cells -> Forall2 stored_as raw (Pd.astype d cells).
Proof.
  intros H. destruct d; simpl; try exact H.
  induction H as [| x y raw cells Hxy _ IH]; simpl; constructor; auto.
  now apply stored_as_float.
Qed.

Lemma stored_as_NaN (y : scalar) : stored_as NaN y -> y = NaN.
Proof. intros [-> | (z & f & H & _)]; [reflexivity | discriminate H]. Qed.

(** A value that can be rescaled gives the same result however the
    table stores it. *)
Lemma to_degrees_stored (x x' y : scalar) :
  stored_as x x' -> to_degrees x' = Ok y -> to_degrees x = Ok y.
Proof.
  intros [-> | (z & f & -> & Hf & ->)]; [auto |].
  simpl. now rewrite Hf.
Qed.

Lemma to_degrees_stored_total (x x' : scalar) :
  stored_as x x' ->
  (exists y, to_degrees x = Ok y) -> exists y, to_degrees x' = Ok y.
Proof.
  intros [-> | (z & f & -> & Hf & ->)]; [auto |].
  intros _. simpl. eauto.
Qed.

(** ** The table of the record frames *)

(** Lines 155-157: appending the row of one more record frame. *)
Lemma concat_table_of (rows : list (list Field)) (fields : list Field) :
  Pd.concat (table_of rows) (Pd.of_row (row_of fields))
  = table_of (rows ++ [fields]).
Proof. unfold table_of. now rewrite fold_left_app. Qed.

(** The shape of the table, and its cells: row [i] holds what the
    [i]-th record frame contributes, as the table stores it. *)
Lemma table_of_spec (rows : list (list Field)) :
  Pd.index (table_of rows) = List.length rows
  /\ Pd.columns (table_of rows) = first_seen (flat_map known_names rows)
  /\ forall c,
       Forall2 stored_as
               (map (fun fields => frame_cell fields c) rows)
               (Pd.cells_or_missing (table_of rows) c).
Proof.
  induction rows as [| fields rows (Hidx & Hcols & Hcells)] using rev_ind.
  - repeat split. intros c. constructor.
  - rewrite <- concat_table_of.
    assert (Hcols' :
              Pd.columns (Pd.concat (table_of rows) (Pd.of_row (row_of fields)))
              = first_seen (flat_map known_names (rows ++ [fields]))).
    { rewrite concat_columns, of_row_columns, Hcols.
      rewrite flat_map_app. simpl flat_map. rewrite app_nil_r.
      now rewrite first_seen_app. }
    split; [| split; [exact Hcols' |]].
    + simpl. rewrite Hidx, length_app. reflexivity.
    + intros c. unfold Pd.cells_or_missing at 1.
      rewrite concat_column, Hcols'.
      destruct (list_in c _) eqn:Hc.
      * apply astype_stored. rewrite map_app. apply Forall2_app; [apply Hcells |].
        rewrite of_row_cells. simpl. constructor; [apply stored_as_refl |].
        constructor.
      * rewrite (map_const _ NaN).
        -- simpl Pd.index. rewrite Hidx, length_app.
           apply Forall2_same, stored_as_refl.
        -- intros fields' Hin. apply frame_cell_absent. intros Hk.
           apply list_in_false_iff in Hc. apply Hc.
           apply first_seen_In, in_flat_map. eauto.
Qed.

Lemma table_of_index (rows : list (list Field)) :
  Pd.index (table_of rows) = List.length rows.
Proof. apply table_of_spec. Qed.

Lemma table_of_columns (rows : list (list Field)) :
  Pd.columns (table_of rows) = first_seen (flat_map known_names rows).
Proof. apply table_of_spec. Qed.

Lemma table_of_column (rows : list (list Field)) (c : string)
    (cells : list scalar) :
  Pd.column (table_of rows) c = Some cells ->
  Forall2 stored_as (map (fun fields => frame_cell fields c) rows) cells.
Proof.
  intros Hc. destruct (table_of_spec rows) as (_ & _ & H).
  specialize (H c). unfold Pd.cells_or_missing in H. now rewrite Hc in H.
Qed.

(** ** The loop over the frames *)

Lemma records_app (file file' : list Frame) :
  records (file ++ file') = records file ++ records file'.
Proof.
  induction file as [| [name fields |] file IH]; simpl; auto.
  destruct (String.eqb name "record"); simpl; now rewrite IH.
Qed.

Lemma tally_df (check_list : ref) (name : string) (st st' : locals) :
  tally check_list name st = Ok st' -> df_activity st' = df_activity st.
Proof.
  unfold tally.
  destruct (negb _); [| destruct (dict_get _ _)]; intros H;
    try discriminate; now injection H as <-.
Qed.

(** One frame: a record frame appends its row to the table, any other
    frame leaves the table as it is. *)
Lemma frame_step_table (check_list good_list : ref) (st st' : locals)
    (frame : Frame) (rows : list (list Field)) :
  frame_step check_list good_list st frame = Ok st' ->
  df_activity st = table_of rows ->
  df_activity st' = table_of (rows ++ records [frame]).
Proof.
  destruct frame as [name fields |]; simpl.
  - intros H Hdf. apply bind_ok in H. destruct H as (st1 & Ht & H).
    apply tally_df in Ht.
    destruct (String.eqb name "record").
    + destruct (row_dict_built good_list fields (lists st1)) as (h' & Hrow).
      rewrite Hrow in H. simpl in H. injection H as <-. simpl.
      rewrite Ht, Hdf. apply concat_table_of.
    + injection H as <-. now rewrite app_nil_r, Ht.
  - intros H Hdf. injection H as <-. now rewrite app_nil_r.
Qed.

Lemma frames_loop_table (check_list good_list : ref) (file : list Frame) :
  forall (st st' : locals) (rows : list (list Field)),
  for_each (frame_step check_list good_list) file st = Ok st' ->
  df_activity st = table_of rows ->
  df_activity st' = table_of (rows ++ records file).
Proof.
  induction file as [| frame file IH]; intros st st' rows H Hdf; simpl in H.
  - injection H as <-. simpl. now rewrite app_nil_r.
  - apply bind_ok in H. destruct H as (st1 & Hstep & H).
    change (frame :: file) with ([frame] ++ file).
    rewrite records_app, app_assoc.
    apply (IH st1 st' _ H).
    apply (frame_step_table _ _ _ _ _ _ Hstep Hdf).
Qed.

(** The table that the loop over the frames leaves in [df_activity]. *)
Lemma read_frames_table (check_list good_list : ref) (h : heap)
    (file : list Frame) (st : locals) :
  read_frames check_list good_list h file = Ok st ->
  df_activity st = table_of (records file).
Proof.
  intros H. apply (frames_loop_table _ _ _ _ _ [] H). reflexivity.
Qed.

Lemma assembled_table (file : list Frame) (st : locals) :
  assembled file = Ok st -> df_activity st = table_of (records file).
Proof. apply read_frames_table. Qed.

Lemma fit_to_pandas_eq (file : list Frame) :
  fit_to_pandas file
  = bind (assembled file) (fun st => unit_normalizer (df_activity st)).
Proof. reflexivity. Qed.

(* ================================================================== *)
(** * Theory: the unit normalizer *)
(* ================================================================== *)

Lemma dict_get_set {V} (c k : string) (v : V) (d : dict V) :
  dict_get c (dict_set k v d)
  = if String.eqb c k then Some v else dict_get c d.
Proof.
  induction d as [| [k' v'] d IH]; simpl; [reflexivity |].
  destruct (String.eqb_spec k k') as [-> | Hk]; simpl.
  - destruct (String.eqb c k'); reflexivity.
  - rewrite IH.
    destruct (String.eqb_spec c k') as [-> | _]; [| reflexivity].
    destruct (String.eqb_spec k' k) as [-> | _]; [contradiction | reflexivity].
Qed.

Lemma dict_keys_set {V} (k : string) (v : V) (d : dict V) :
  dict_keys (dict_set k v d) = see (dict_keys d) k.
Proof.
  unfold see. induction d as [| [k' v'] d IH]; simpl; [reflexivity |].
  destruct (String.eqb_spec k k') as [-> | _]; simpl; [reflexivity |].
  rewrite IH. destruct (list_in k (dict_keys d)); reflexivity.
Qed.

Lemma dict_get_keys {V} (c : string) (d : dict V) :
  dict_get c d <> None <-> In c (dict_keys d).
Proof.
  induction d as [| [k v] d IH]; simpl; [tauto |].
  destruct (String.eqb_spec c k) as [-> | Hne].
  - split; [auto | discriminate].
  - rewrite IH. split; [auto | intros [H | H]; congruence].
Qed.

Lemma column_columns (df : Pd.DataFrame) (c : string) :
  Pd.column df c <> None <-> In c (Pd.columns df).
Proof. apply dict_get_keys. Qed.

Lemma Forall2_nth {X Y} (R : X -> Y -> Prop) (l : list X) (l' : list Y) :
  Forall2 R l l' ->
  forall (i : nat) (x : X), nth_error l i = Some x ->
  exists y, nth_error l' i = Some y /\ R x y.
Proof.
  induction 1 as [| x0 y0 l l' Hxy _ IH]; intros [| i] x; simpl;
    try discriminate.
  - intros [= <-]. eauto.
  - apply IH.
Qed.

(** One pass of the loop of lines 160-163. *)
Lemma normalize_column_ok (df df' : Pd.DataFrame) (c : string) :
  normalize_column df c = Ok df' ->
  exists cells cells',
    Pd.column df c = Some cells
    /\ Forall2 (fun x y => to_degrees x = Ok y) cells cells'
    /\ Pd.column df' c = Some cells'
    /\ (forall c', c' <> c -> Pd.column df' c' = Pd.column df c')
    /\ Pd.columns df' = Pd.columns df
    /\ Pd.index df' = Pd.index df.
Proof.
  unfold normalize_column, Pd.getitem. intros H.
  destruct (Pd.column df c) as [cells |] eqn:Hc; [| discriminate].
  simpl in H. apply bind_ok in H. destruct H as (cells' & Hm & H).
  injection H as <-. exists cells, cells'.
  split; [reflexivity |].
  split; [now apply map_m_forall2 |].
  unfold Pd.column, Pd.columns, Pd.setitem; simpl.
  split; [| split; [| split]].
  - now rewrite dict_get_set, String.eqb_refl.
  - intros c' Hne. rewrite dict_get_set.
    destruct (String.eqb_spec c' c); [contradiction | reflexivity].
  - fold (dict_keys (dict_set c cells' (Pd.data df))).
    rewrite dict_keys_set. unfold see.
    assert (Hin : In c (dict_keys (Pd.data df))).
    { apply dict_get_keys. unfold Pd.column in Hc. congruence. }
    apply list_in_iff in Hin. now rewrite Hin.
  - reflexivity.
Qed.

Lemma normalize_column_missing (df : Pd.DataFrame) (c : string) :
  Pd.column df c = None -> normalize_column df c = Raise (KeyError c).
Proof.
  intros H. unfold normalize_column, Pd.getitem. now rewrite H.
Qed.

(** A column that is present makes [normalize_column] either succeed or
    raise what [to_degrees] raises; it never yields a table when the
    column is absent. *)
Lemma normalize_column_needs (df df' : Pd.DataFrame) (c : string) :
  normalize_column df c = Ok df' -> In c (Pd.columns df).
Proof.
  intros H. apply normalize_column_ok in H.
  destruct H as (cells & _ & Hc & _).
  apply column_columns. congruence.
Qed.

Lemma unit_normalizer_eq (df : Pd.DataFrame) :
  unit_normalizer df
  = bind (normalize_column df "position_lat")
         (fun df1 => normalize_column df1 "position_long").
Proof.
  unfold unit_normalizer. simpl.
  destruct (normalize_column df "position_lat") as [df1 |]; simpl; auto.
  destruct (normalize_column df1 "position_long"); reflexivity.
Qed.

(** The unit normalizer, when it returns a table. *)
Lemma unit_normalizer_ok (df t : Pd.DataFrame) :
  unit_normalizer df = Ok t ->
  Pd.index t = Pd.index df
  /\ Pd.columns t = Pd.columns df
  /\ In "position_lat" (Pd.columns df)
  /\ In "position_long" (Pd.columns df)
  /\ forall c cells, Pd.column df c = Some cells ->
       exists cells',
         Pd.column t c = Some cells' /\ Forall2 (normalized c) cells cells'.
Proof.
  rewrite unit_normalizer_eq. intros H.
  apply bind_ok in H. destruct H as (df1 & H1 & H2).
  pose proof (normalize_column_needs _ _ _ H1) as Hlat.
  pose proof (normalize_column_needs _ _ _ H2) as Hlong.
  apply normalize_column_ok in H1, H2.
  destruct H1 as (lat & lat' & Hlat0 & Hlat1 & Hlat2 & Hoth1 & Hcols1 & Hidx1).
  destruct H2 as (lng & lng' & Hlng0 & Hlng1 & Hlng2 & Hoth2 & Hcols2 & Hidx2).
  rewrite Hcols1 in Hlong.
  repeat split; try congruence.
  intros c cells Hc. unfold normalized, is_position.
  destruct (String.eqb_spec c "position_long") as [-> | Hnlong].
  - rewrite Hoth1 in Hlng0 by discriminate.
    exists lng'. split; [exact Hlng2 |]. simpl. congruence.
  - rewrite orb_false_r. rewrite (Hoth2 c Hnlong).
    destruct (String.eqb_spec c "position_lat") as [-> | Hnlat].
    + exists lat'. split; [exact Hlat2 | congruence].
    + rewrite (Hoth1 c Hnlat). exists cells.
      split; [exact Hc | now apply Forall2_same].
Qed.

(** ** Tables that the unit normalizer accepts *)

Lemma map_m_total {A B} (f : A -> result B) (xs : list A) :
  Forall (fun x => exists y, f x = Ok y) xs -> exists ys, map_m f xs = Ok ys.
Proof.
  induction 1 as [| x xs (y & Hy) _ (ys & Hys)]; simpl; [eauto |].
  rewrite Hy. simpl. rewrite Hys. simpl. eauto.
Qed.

Lemma normalize_column_total (df : Pd.DataFrame) (c : string)
    (cells : list scalar) :
  Pd.column df c = Some cells ->
  Forall (fun x => exists y, to_degrees x = Ok y) cells ->
  exists df', normalize_column df c = Ok df'.
Proof.
  intros Hc Hall. unfold normalize_column, Pd.getitem. rewrite Hc. simpl.
  destruct (map_m_total to_degrees cells Hall) as (cells' & Hm).
  unfold Pd.apply. rewrite Hm. simpl. eauto.
Qed.

(** The unit normalizer returns a table when both position columns are
    there and hold nothing but values that [to_degrees] accepts. *)
Lemma unit_normalizer_total (df : Pd.DataFrame) (lat long : list scalar) :
  Pd.column df "position_lat" = Some lat ->
  Pd.column df "position_long" = Some long ->
  Forall (fun x => exists y, to_degrees x = Ok y) lat ->
  Forall (fun x => exists y, to_degrees x = Ok y) long ->
  exists t, unit_normalizer df = Ok t.
Proof.
  intros Hlat Hlong Hall1 Hall2. rewrite unit_normalizer_eq.
  destruct (normalize_column_total df _ lat Hlat Hall1) as (df1 & H1).
  rewrite H1. simpl.
  apply normalize_column_ok in H1.
  destruct H1 as (_ & _ & _ & _ & _ & Hoth & _).
  apply (normalize_column_total df1 _ long); [| exact Hall2].
  rewrite Hoth by discriminate. exact Hlong.
Qed.

(* ================================================================== *)
(** * Theory: the marker test *)
(* ================================================================== *)

Lemma substring_prefix (sub post : string) :
  substring 0 (String.length sub) (sub ++ post)%string = sub.
Proof.
  induction sub as [| a sub IH]; simpl.
  - now destruct post.
  - now rewrite IH.
Qed.

Lemma substring_at (pre sub post : string) :
  substring (String.length pre) (String.length sub) (pre ++ sub ++ post)%string
  = sub.
Proof.
  induction pre as [| a pre IH]; simpl; [apply substring_prefix | exact IH].
Qed.

Lemma substring_0_split (k : nat) (s : string) :
  exists post, s = (substring 0 k s ++ post)%string.
Proof.
  revert k. induction s as [| a s IH]; intros [| k]; simpl;
    try (eexists; reflexivity).
  destruct (IH k) as (post & Hpost). exists post. now rewrite <- Hpost.
Qed.

Lemma substring_split (m k : nat) (s : string) :
  exists pre post, s = (pre ++ substring m k s ++ post)%string.
Proof.
  revert m. induction s as [| a s IH]; intros [| m].
  - exists EmptyString, EmptyString. now destruct k.
  - exists EmptyString, EmptyString. reflexivity.
  - exists EmptyString. apply substring_0_split.
  - destruct (IH m) as (pre & post & H).
    exists (String a pre), post. simpl. now rewrite <- H.
Qed.

(** [str_find] is a substring test: the result is negative exactly when
    the marker occurs nowhere in the name. *)
Lemma is_known_spec (name : string) :
  is_known name = false <->
  exists pre post, name = (pre ++ "unknown" ++ post)%string.
Proof.
  unfold is_known, str_find. split.
  - destruct (String.index 0 "unknown" name) as [m |] eqn:Hi.
    + intros _. apply index_correct1 in Hi.
      destruct (substring_split m (String.length "unknown") name)
        as (pre & post & H).
      rewrite Hi in H. eauto.
    + discriminate.
  - intros (pre & post & ->).
    destruct (String.index 0 "unknown" _) as [m |] eqn:Hi.
    + apply Z.ltb_ge. lia.
    + exfalso.
      apply (index_correct3 0 (String.length pre)) in Hi;
        [| discriminate | lia].
      apply Hi. apply substring_at.
Qed.

(* ================================================================== *)
(** * Theory: the tally *)
(* ================================================================== *)

Lemma deref_append (r : ref) (x : string) (h : heap) :
  deref (append r x h) r = deref h r ++ [x].
Proof. unfold deref, append. simpl. now rewrite Nat.eqb_refl. Qed.

Lemma deref_append_other (r r' : ref) (x : string) (h : heap) :
  r' <> r -> deref (append r x h) r' = deref h r'.
Proof.
  intros Hne. unfold deref, append. simpl.
  destruct (Nat.eqb_spec r' r); [contradiction | reflexivity].
Qed.

(** As long as every listed name has a count, the tally does not
    raise. *)
Lemma tally_counted (check_list : ref) (name : string) (st : locals) :
  counted check_list st ->
  exists st',
    tally check_list name st = Ok st'
    /\ counted check_list st'
    /\ lists st' = (if list_in name (deref (lists st) check_list)
                    then lists st
                    else append check_list name (lists st))
    /\ df_activity st' = df_activity st.
Proof.
  intros Hc. unfold tally.
  destruct (list_in name (deref (lists st) check_list)) eqn:Hin; simpl.
  - apply list_in_iff in Hin.
    destruct (dict_get name (list_check st)) as [n |] eqn:Hn.
    + eexists. split; [reflexivity |]. split; [| split; reflexivity].
      intros m Hm. cbn [lists list_check] in Hm |- *. rewrite dict_get_set.
      destruct (String.eqb m name); [discriminate | auto].
    + now apply Hc in Hin.
  - eexists. split; [reflexivity |]. split; [| split; reflexivity].
    intros m Hm. cbn [lists list_check] in Hm |- *.
    rewrite deref_append in Hm.
    rewrite dict_get_set.
    destruct (String.eqb_spec m name) as [_ | Hne]; [discriminate |].
    apply in_app_or in Hm. destruct Hm as [Hm | [Hm | []]]; [auto | congruence].
Qed.

(** A file without record frames: the loop over the frames ends
    normally and leaves the table as it was. *)
Lemma no_record_loop (check_list good_list : ref) (file : list Frame) :
  records file = [] ->
  forall st, counted check_list st ->
  exists st',
    for_each (frame_step check_list good_list) file st = Ok st'
    /\ df_activity st' = df_activity st.
Proof.
  induction file as [| [name fields |] file IH]; simpl; intros Hrec st Hc.
  - eauto.
  - destruct (String.eqb name "record"); [discriminate |].
    destruct (tally_counted check_list name st Hc) as (st1 & -> & Hc1 & _ & Hdf).
    simpl. destruct (IH Hrec st1 Hc1) as (st' & -> & Hdf').
    exists st'. split; [reflexivity | congruence].
  - apply IH; assumption.
Qed.

Lemma no_record_assembled (file : list Frame) :
  records file = [] ->
  exists st, assembled file = Ok st /\ df_activity st = Pd.empty.
Proof.
  intros Hrec. unfold assembled, read_frames. simpl.
  apply (no_record_loop _ _ file Hrec). intros n [].
Qed.

(** The loop over the fields puts nothing in a list but the names of
    the fields without the marker. *)
Lemma field_loop_heap_sub (good_list : ref) (all fs : list Field) :
  forall h row h' row',
  for_each (field_step good_list all) fs (h, row) = Ok (h', row') ->
  forall r x, In x (deref h' r) -> In x (deref h r) \/ In x (known_names fs).
Proof.
  unfold known_names.
  induction fs as [| f fs IH]; simpl; intros h row h' row' H r x Hx.
  - injection H as <- <-. now left.
  - fold (is_known (field_name f)) in H |- *.
    destruct (is_known (field_name f)) eqn:Hk; simpl in H |- *.
    + destruct (get_value all (field_name f)) as [v | e]; [| discriminate].
      simpl in H. destruct (IH _ _ _ _ H r x Hx) as [Hold | Hnew]; [| tauto].
      rewrite andb_true_r in Hold.
      destruct (list_in (field_name f) (deref h good_list)); simpl in Hold;
        [now left |].
      destruct (Nat.eq_dec r good_list) as [-> | Hne].
      * rewrite deref_append in Hold. apply in_app_or in Hold.
        destruct Hold as [Hold | [<- | []]]; tauto.
      * rewrite deref_append_other in Hold by assumption. now left.
    + destruct (IH _ _ _ _ H r x Hx); tauto.
Qed.

(** When no frame is named like a field of a record frame, the tally
    never meets a listed name without a count. *)
Lemma harmless_loop (names : list string) (l : ref) (file : list Frame) :
  (forall n, In n (frame_names file) -> ~ In n names) ->
  (forall n, In n (flat_map known_names (records file)) -> In n names) ->
  forall st, counted_or names l st ->
  exists st', for_each (frame_step l l) file st = Ok st'.
Proof.
  induction file as [| [name fields |] file IH]; intros Hframes Hfields st Hinv.
  - simpl. eauto.
  - assert (Hname : ~ In name names) by (apply Hframes; simpl; tauto).
    assert (Hframes' : forall n, In n (frame_names file) -> ~ In n names)
      by (intros n Hn; apply Hframes; simpl; tauto).
    assert (Htally : exists st1,
               tally l name st = Ok st1 /\ counted_or names l st1).
    { unfold tally.
      destruct (list_in name (deref (lists st) l)) eqn:Hin; simpl.
      - apply list_in_iff in Hin.
        destruct (Hinv name Hin) as [Hc | Hc]; [| contradiction].
        destruct (dict_get name (list_check st)) as [k |]; [| congruence].
        eexists. split; [reflexivity |].
        intros n Hn. cbn [lists list_check] in Hn |- *.
        rewrite dict_get_set. destruct (String.eqb n name).
        + left. discriminate.
        + apply Hinv, Hn.
      - eexists. split; [reflexivity |].
        intros n Hn. cbn [lists list_check] in Hn |- *.
        rewrite deref_append in Hn. rewrite dict_get_set.
        destruct (String.eqb_spec n name) as [_ | Hne].
        + left. discriminate.
        + apply in_app_or in Hn. destruct Hn as [Hn | [Hn | []]];
            [apply Hinv, Hn | congruence]. }
    destruct Htally as (st1 & Ht & Hinv1).
    simpl. rewrite Ht. simpl.
    destruct (String.eqb name "record") eqn:Hrec.
    + destruct (row_dict_built l fields (lists st1)) as (h' & Hrow).
      rewrite Hrow. simpl. apply IH; [exact Hframes' | |].
      * intros n Hn. apply Hfields. simpl. rewrite Hrec. simpl.
        apply in_or_app. now right.
      * intros n Hn. cbn [lists list_check] in Hn |- *.
        destruct (field_loop_heap_sub _ _ _ _ _ _ _ Hrow l n Hn) as [Hold | Hnew].
        -- apply Hinv1, Hold.
        -- right. apply Hfields. simpl. rewrite Hrec. simpl.
           apply in_or_app. now left.
    + apply IH; [exact Hframes' | | exact Hinv1].
      intros n Hn. apply Hfields. simpl. now rewrite Hrec.
  - simpl. apply IH; assumption.
Qed.

(** When no data frame is named like a field without the marker of a
    record frame, the loop over the frames ends without an error. *)
Lemma harmless_assembled (file : list Frame) :
  (forall n, In n (flat_map known_names (records file)) ->
             ~ In n (frame_names file)) ->
  exists st, assembled file = Ok st.
Proof.
  intros Hdis.
  destruct (harmless_loop (flat_map known_names (records file))
              (fst (new_list empty_heap)) file) with
    (st := mkLocals (snd (new_list empty_heap)) [] Pd.empty) as (st & Hst).
  - intros n Hn Hf. exact (Hdis n Hf Hn).
  - auto.
  - intros n [].
  - exists st. exact Hst.
Qed.

(* ================================================================== *)
(** * Theory: binary64 arithmetic *)
(* ================================================================== *)

(** The number of binary digits of a positive integer. *)
Lemma digits2_pos_bounds (p : positive) :
  2 ^ (Zpos (digits2_pos p) - 1) <= Zpos p < 2 ^ Zpos (digits2_pos p).
Proof.
  induction p as [p IH | p IH |]; simpl digits2_pos.
  - rewrite Pos2Z.inj_succ. change (Zpos p~1) with (2 * Zpos p + 1).
    replace (Z.succ (Zpos (digits2_pos p)) - 1)
      with (Z.succ (Zpos (digits2_pos p) - 1)) by lia.
    rewrite !Z.pow_succ_r by lia.
    revert IH. generalize (2 ^ (Zpos (digits2_pos p) - 1)).
    generalize (2 ^ Zpos (digits2_pos p)). lia.
  - rewrite Pos2Z.inj_succ. change (Zpos p~0) with (2 * Zpos p).
    replace (Z.succ (Zpos (digits2_pos p)) - 1)
      with (Z.succ (Zpos (digits2_pos p) - 1)) by lia.
    rewrite !Z.pow_succ_r by lia.
    revert IH. generalize (2 ^ (Zpos (digits2_pos p) - 1)).
    generalize (2 ^ Zpos (digits2_pos p)). lia.
  - simpl. lia.
Qed.

Lemma Zdigits2_bounds (m : Z) :
  0 < m -> 2 ^ (Zdigits2 m - 1) <= m < 2 ^ Zdigits2 m /\ 0 < Zdigits2 m.
Proof.
  destruct m as [| p | p]; try lia. intros _. simpl.
  split; [apply digits2_pos_bounds | lia].
Qed.

Lemma Zdigits2_le (m b : Z) : 0 < m < 2 ^ b -> Zdigits2 m <= b.
Proof.
  intros [Hpos Hlt]. destruct (Zdigits2_bounds m Hpos) as ([Hlo _] & Hd).
  assert (Hb : 0 <= b).
  { destruct (Z.le_gt_cases 0 b); [assumption |].
    rewrite Z.pow_neg_r in Hlt by assumption. lia. }
  assert (H : 2 ^ (Zdigits2 m - 1) < 2 ^ b) by lia.
  apply Z.pow_lt_mono_r_iff in H; lia.
Qed.

Lemma Zdigits2_ge (m a : Z) : 0 <= a -> 2 ^ a <= m -> a + 1 <= Zdigits2 m.
Proof.
  intros Ha Hle.
  assert (Hpos : 0 < m) by (pose proof (Z.pow_pos_nonneg 2 a); lia).
  destruct (Zdigits2_bounds m Hpos) as ([_ Hhi] & Hd).
  assert (H : 2 ^ a < 2 ^ Zdigits2 m) by lia.
  apply Z.pow_lt_mono_r_iff in H; lia.
Qed.

Lemma shr_1_m (r : shr_record) :
  0 <= shr_m r -> shr_m (shr_1 r) = shr_m r / 2 /\ 0 <= shr_m (shr_1 r).
Proof.
  destruct r as [m r s]. rewrite <- Z.div2_div.
  destruct m as [| [p | p |] | p]; simpl; intros H;
    try (exfalso; lia); (split; [reflexivity | lia]).
Qed.

Lemma shr_iter_m (p : positive) :
  forall r, 0 <= shr_m r ->
  shr_m (iter_pos shr_1 p r) = shr_m r / 2 ^ Zpos p
  /\ 0 <= shr_m (iter_pos shr_1 p r).
Proof.
  induction p as [p IH | p IH |]; intros r Hr; simpl iter_pos.
  - destruct (shr_1_m r Hr) as (E1 & P1).
    destruct (IH _ P1) as (E2 & P2).
    destruct (IH _ P2) as (E3 & P3).
    split; [| exact P3].
    rewrite E3, E2, E1. change (Zpos p~1) with (2 * Zpos p + 1).
    rewrite !Z.div_div by (try apply Z.pow_pos_nonneg; lia).
    f_equal. replace (2 * Zpos p + 1) with (1 + (Zpos p + Zpos p)) by lia.
    rewrite !Z.pow_add_r by lia. reflexivity.
  - destruct (IH _ Hr) as (E2 & P2).
    destruct (IH _ P2) as (E3 & P3).
    split; [| exact P3].
    rewrite E3, E2. change (Zpos p~0) with (2 * Zpos p).
    rewrite !Z.div_div by (try apply Z.pow_pos_nonneg; lia).
    f_equal. replace (2 * Zpos p) with (Zpos p + Zpos p) by lia.
    rewrite !Z.pow_add_r by lia. reflexivity.
  - apply shr_1_m, Hr.
Qed.

Lemma shr_record_of_loc_m (m : Z) (l : location) :
  shr_m (shr_record_of_loc m l) = m.
Proof. destruct l as [| []]; reflexivity. Qed.

Lemma shr_fexp_spec (m e : Z) (l : location) :
  0 <= m ->
  snd (shr_fexp prec emax m e l)
  = Z.max e (fexp prec emax (Zdigits2 m + e))
  /\ shr_m (fst (shr_fexp prec emax m e l))
     = m / 2 ^ (snd (shr_fexp prec emax m e l) - e).
Proof.
  intros Hm. unfold shr_fexp, shr.
  destruct (fexp prec emax (Zdigits2 m + e) - e) as [| p | p] eqn:Hn; simpl.
  - rewrite shr_record_of_loc_m, Z.sub_diag, Z.div_1_r. lia.
  - destruct (shr_iter_m p (shr_record_of_loc m l)) as (E & _).
    { now rewrite shr_record_of_loc_m. }
    rewrite E, shr_record_of_loc_m.
    replace (e + Zpos p - e) with (Zpos p) by lia. lia.
  - rewrite shr_record_of_loc_m, Z.sub_diag, Z.div_1_r. lia.
Qed.

Lemma round_nearest_even_bounds (m : Z) (l : location) :
  m <= round_nearest_even m l <= m + 1.
Proof.
  destruct l as [| []]; simpl; try destruct (Z.even m); lia.
Qed.

Lemma Zdigits2_mono (m m' : Z) : 0 < m <= m' -> Zdigits2 m <= Zdigits2 m'.
Proof.
  intros [Hpos Hle]. destruct (Zdigits2_bounds m Hpos) as ([Hlo _] & Hd).
  pose proof (Zdigits2_ge m' (Zdigits2 m - 1)). lia.
Qed.

(** One normalisation step of a positive mantissa whose exponent is in
    range: the mantissa loses the digits beyond the 53rd, the
    exponent grows by as much. *)
Lemma shift_step (m e : Z) (l : location) :
  0 < m -> -1074 <= e ->
  snd (shr_fexp prec emax m e l) = e + Z.max 0 (Zdigits2 m - 53)
  /\ 0 < shr_m (fst (shr_fexp prec emax m e l)) < 2 ^ 53
  /\ Zdigits2 (shr_m (fst (shr_fexp prec emax m e l)))
     + snd (shr_fexp prec emax m e l)
     = Zdigits2 m + e.
Proof.
  intros Hpos He.
  destruct (shr_fexp_spec m e l) as (Hsnd & Hfst); [lia |].
  destruct (Zdigits2_bounds m Hpos) as ((Hlo & Hhi) & Hd).
  revert Hsnd Hfst.
  generalize (snd (shr_fexp prec emax m e l)) as e'.
  generalize (shr_m (fst (shr_fexp prec emax m e l))) as m'.
  intros m' e' Hsnd Hfst.
  set (d := Zdigits2 m) in *.
  assert (He' : e' = e + Z.max 0 (d - 53)).
  { rewrite Hsnd. unfold fexp, emin, prec, emax. lia. }
  set (k := Z.max 0 (d - 53)) in *.
  assert (Hk : 0 <= k <= d - 1) by lia.
  replace (e' - e) with k in Hfst by lia.
  assert (Hpk : 0 < 2 ^ k) by (apply Z.pow_pos_nonneg; lia).
  assert (Hlo' : 2 ^ (d - 1 - k) <= m').
  { rewrite Hfst. apply Z.div_le_lower_bound; [lia |].
    rewrite <- Z.pow_add_r by lia.
    now replace (k + (d - 1 - k)) with (d - 1) by lia. }
  assert (Hhi' : m' < 2 ^ (d - k)).
  { rewrite Hfst. apply Z.div_lt_upper_bound; [lia |].
    rewrite <- Z.pow_add_r by lia.
    now replace (k + (d - k)) with d by lia. }
  assert (H53 : 2 ^ (d - k) <= 2 ^ 53) by (apply Z.pow_le_mono_r; lia).
  assert (Hp : 0 < 2 ^ (d - 1 - k)) by (apply Z.pow_pos_nonneg; lia).
  split; [exact He' |]. split; [lia |].
  assert (Zdigits2 m' = d - k); [| lia].
  apply Z.le_antisymm.
  - apply Zdigits2_le. lia.
  - pose proof (Zdigits2_ge m' (d - 1 - k)). lia.
Qed.

(** Rounding a positive mantissa whose exponent is in range: the
    result is a finite float with at most 53 digits, or an infinity
    when the exponent has grown beyond the largest one. *)
Lemma binary_round_aux_spec (sx : bool) (mx ex : Z) (lx : location) :
  0 < mx -> -1074 <= ex ->
  exists m' e',
    binary_round_aux prec emax sx mx ex lx
    = (if e' <=? 971 then S754_finite sx m' e' else S754_infinity sx)
    /\ Zpos m' < 2 ^ 53
    /\ ex <= e' <= ex + Z.max 0 (Zdigits2 mx - 53) + 1
    /\ Zdigits2 mx + ex <= Zpos (digits2_pos m') + e'.
Proof.
  intros Hpos Hex. unfold binary_round_aux.
  destruct (shift_step mx ex lx Hpos Hex) as (He1 & Hm1 & Hd1).
  destruct (shr_fexp prec emax mx ex lx) as [mrs1 e1].
  cbn [fst snd] in He1, Hm1, Hd1.
  pose proof (round_nearest_even_bounds (shr_m mrs1) (loc_of_shr_record mrs1))
    as Hr.
  set (m2 := round_nearest_even (shr_m mrs1) (loc_of_shr_record mrs1)) in *.
  assert (Hpos2 : 0 < m2) by lia.
  assert (He1' : -1074 <= e1) by lia.
  destruct (shift_step m2 e1 loc_Exact Hpos2 He1') as (He2 & Hm2 & Hd2).
  destruct (shr_fexp prec emax m2 e1 loc_Exact) as [mrs2 e2].
  cbn [fst snd] in He2, Hm2, Hd2.
  assert (Hd12 : Zdigits2 (shr_m mrs1) <= Zdigits2 m2)
    by (apply Zdigits2_mono; lia).
  assert (Hd54 : Zdigits2 m2 <= 54).
  { apply Zdigits2_le. change (2 ^ 54) with (2 * 2 ^ 53). lia. }
  destruct (shr_m mrs2) as [| m' | m'] eqn:Hm'; try lia.
  exists m', e2. split; [reflexivity |].
  change (Zdigits2 (Zpos m')) with (Zpos (digits2_pos m')) in Hd2.
  split; [lia |]. lia.
Qed.

Lemma semicircles_per_degree_eq :
  semicircles_per_degree = S754_finite false 6405119470038039 (-29).
Proof. reflexivity. Qed.

(** Dividing a finite float by [(2**32) / 360]: the quotient is finite,
    its exponent is smaller by at least 22, and its magnitude by at
    most 24. *)
Lemma div_semicircles (s : bool) (m : positive) (e : Z) :
  Zpos m < 2 ^ 53 ->
  -997 <= Zpos (digits2_pos m) + e ->
  e <= 993 ->
  exists m' e',
    float_div (S754_finite s m e) semicircles_per_degree = S754_finite s m' e'
    /\ Zpos m' < 2 ^ 53
    /\ e' <= e - 22
    /\ Zpos (digits2_pos m) + e - 24 <= Zpos (digits2_pos m') + e'.
Proof.
  intros Hm Hmag He.
  rewrite semicircles_per_degree_eq. unfold float_div, SFdiv, SFdiv_core_binary.
  rewrite xorb_false_r.
  change (Zdigits2 (Zpos 6405119470038039)) with 53.
  change (Zdigits2 (Zpos m)) with (Zpos (digits2_pos m)).
  destruct (Zdigits2_bounds (Zpos m) eq_refl) as ((Hlo & Hhi) & Hd).
  change (Zdigits2 (Zpos m)) with (Zpos (digits2_pos m)) in Hlo, Hhi, Hd.
  assert (Hd53 : Zpos (digits2_pos m) <= 53).
  { apply (Zdigits2_le (Zpos m)). lia. }
  set (d := Zpos (digits2_pos m)) in *.
  assert (He' : Z.min (fexp prec emax (d + e - (53 + -29))) (e - -29)
                = d + e - 77).
  { unfold fexp, emin, prec, emax. lia. }
  rewrite He'.
  replace (e - -29 - (d + e - 77)) with (106 - d) by lia.
  destruct (106 - d) as [| k | k] eqn:Hk; try lia.
  rewrite Z.shiftl_mul_pow2 by lia. rewrite <- Hk.
  set (c := 6405119470038039).
  assert (Hc : 2 ^ 52 <= c < 2 ^ 53)
    by (unfold c; split; [apply Z.leb_le | apply Z.ltb_lt]; reflexivity).
  set (n := Zpos m * 2 ^ (106 - d)).
  assert (Hn : 2 ^ 105 <= n < 2 ^ 106).
  { unfold n.
    assert (E1 : 2 ^ 105 = 2 ^ (d - 1) * 2 ^ (106 - d))
      by (rewrite <- Z.pow_add_r by lia; f_equal; lia).
    assert (E2 : 2 ^ 106 = 2 ^ d * 2 ^ (106 - d))
      by (rewrite <- Z.pow_add_r by lia; f_equal; lia).
    assert (0 < 2 ^ (106 - d)) by (apply Z.pow_pos_nonneg; lia).
    rewrite E1, E2.
    split; [apply Z.mul_le_mono_nonneg_r | apply Z.mul_lt_mono_pos_r]; lia. }
  assert (Hq : 2 ^ 52 <= n / c < 2 ^ 54).
  { split.
    - apply Z.div_le_lower_bound; [lia |].
      change (2 ^ 105) with (2 ^ 53 * 2 ^ 52) in Hn. nia.
    - apply Z.div_lt_upper_bound; [lia |].
      change (2 ^ 106) with (2 ^ 52 * 2 ^ 54) in Hn. nia. }
  unfold Z.div in Hq.
  destruct (Z.div_eucl n c) as [q r]. cbn [fst] in Hq.
  destruct (binary_round_aux_spec s q (d + e - 77) (new_location c r))
    as (m' & e' & Hres & Hm' & Hbe & Hmag'); [lia | lia |].
  assert (Hdq : 53 <= Zdigits2 q <= 54).
  { split; [apply (Zdigits2_ge q 52) | apply Zdigits2_le]; lia. }
  exists m', e'. rewrite Hres.
  replace (e' <=? 971) with true by (symmetry; apply Z.leb_le; lia).
  repeat split; lia.
Qed.

(** Converting a positive integer: the float is finite with at most 53
    digits and a magnitude of at least one, or an infinity when the
    integer is too large. *)
Lemma binary_round_int (s : bool) (p : positive) :
  exists m e,
    binary_round prec emax s p 0
    = (if e <=? 971 then S754_finite s m e else S754_infinity s)
    /\ Zpos m < 2 ^ 53
    /\ 1 <= Zpos (digits2_pos m) + e
    /\ e <= Z.max 0 (Zpos (digits2_pos p) - 53) + 1.
Proof.
  unfold binary_round, shl_align.
  destruct (Zdigits2_bounds (Zpos p) eq_refl) as ((Hlo & Hhi) & Hd).
  change (Zdigits2 (Zpos p)) with (Zpos (digits2_pos p)) in Hlo, Hhi, Hd.
  set (d := Zpos (digits2_pos p)) in *.
  assert (Hf : fexp prec emax (d + 0) = d - 53).
  { unfold fexp, emin, prec, emax. lia. }
  rewrite Hf.
  destruct (d - 53 - 0) as [| k | k] eqn:Hk.
  - destruct (binary_round_aux_spec s (Zpos p) 0 loc_Exact)
      as (m & e & Hres & Hm & He & Hmag); [lia | lia |].
    change (Zdigits2 (Zpos p)) with d in He, Hmag.
    exists m, e. rewrite Hres. repeat split; lia.
  - destruct (binary_round_aux_spec s (Zpos p) 0 loc_Exact)
      as (m & e & Hres & Hm & He & Hmag); [lia | lia |].
    change (Zdigits2 (Zpos p)) with d in He, Hmag.
    exists m, e. rewrite Hres. repeat split; lia.
  - change (Pos.iter xO p k) with (shift_pos k p).
    pose proof (shift_pos_correct k p) as Hshift.
    rewrite Z.pow_pos_fold in Hshift.
    set (mz := shift_pos k p) in *.
    assert (Hpk : 0 < 2 ^ Zpos k) by (apply Z.pow_pos_nonneg; lia).
    assert (E1 : 2 ^ 52 = 2 ^ Zpos k * 2 ^ (d - 1))
      by (rewrite <- Z.pow_add_r by lia; f_equal; lia).
    assert (E2 : 2 ^ 53 = 2 ^ Zpos k * 2 ^ d)
      by (rewrite <- Z.pow_add_r by lia; f_equal; lia).
    assert (Hmz : 2 ^ 52 <= Zpos mz < 2 ^ 53).
    { rewrite Hshift, E1, E2.
      split; [apply Z.mul_le_mono_nonneg_l | apply Z.mul_lt_mono_pos_l]; lia. }
    assert (Hdz : Zdigits2 (Zpos mz) = 53).
    { apply Z.le_antisymm;
        [apply Zdigits2_le | apply (Zdigits2_ge (Zpos mz) 52)]; lia. }
    destruct (binary_round_aux_spec s (Zpos mz) (d - 53) loc_Exact)
      as (m & e & Hres & Hm & He & Hmag); [lia | lia |].
    rewrite Hdz in He, Hmag.
    exists m, e. rewrite Hres. repeat split; lia.
Qed.

Lemma float_of_int_finite (v : Z) (f : float) :
  v <> 0 -> float_of_int v = Ok f ->
  exists s m e,
    f = S754_finite s m e
    /\ Zpos m < 2 ^ 53
    /\ 1 <= Zpos (digits2_pos m) + e
    /\ e <= 971.
Proof.
  intros Hv. unfold float_of_int, binary_normalize.
  destruct v as [| p | p]; [contradiction | |].
  - destruct (binary_round_int false p) as (m & e & -> & Hm & Hmag & _).
    destruct (Z.leb_spec e 971); [| discriminate].
    intros [= <-]. eauto 7.
  - destruct (binary_round_int true p) as (m & e & -> & Hm & Hmag & _).
    destruct (Z.leb_spec e 971); [| discriminate].
    intros [= <-]. eauto 7.
Qed.

(** The conversion does not overflow below [2 ** 1023]. *)
Lemma float_of_int_total (v : Z) :
  Z.abs v < 2 ^ 1023 -> exists f, float_of_int v = Ok f.
Proof.
  intros Hv. unfold float_of_int, binary_normalize.
  assert (Hp : forall s p, Zpos p < 2 ^ 1023 ->
            exists f,
              match binary_round prec emax s p 0 with
              | S754_infinity _ => Raise OverflowError
              | f => Ok f
              end = Ok f).
  { intros s p Hlt.
    destruct (binary_round_int s p) as (m & e & -> & _ & _ & He).
    assert (Zpos (digits2_pos p) <= 1023)
      by (apply (Zdigits2_le (Zpos p)); lia).
    replace (e <=? 971) with true by (symmetry; apply Z.leb_le; lia).
    eauto. }
  destruct v as [| p | p]; [eauto | apply Hp; lia | apply Hp; lia].
Qed.

(** Rescaling twice is not rescaling once: the second division lowers
    the exponent again. *)
Lemma to_degrees_twice (v : Z) (y : scalar) :
  v <> 0 -> to_degrees (SInt v) = Ok y ->
  exists z, to_degrees y = Ok z /\ z <> y.
Proof.
  intros Hv H. unfold to_degrees in H. apply bind_ok in H.
  destruct H as (f & Hf & H). injection H as <-.
  destruct (float_of_int_finite v f Hv Hf) as (s & m & e & -> & Hm & Hmag & He).
  destruct (div_semicircles s m e Hm) as (m1 & e1 & -> & Hm1 & He1 & Hmag1);
    [lia | lia |].
  destruct (div_semicircles s m1 e1 Hm1) as (m2 & e2 & H2 & _ & He2 & _);
    [lia | lia |].
  exists (SFloat (S754_finite s m2 e2)). split.
  - unfold to_degrees. now rewrite H2.
  - intros [= _ E]. lia.
Qed.

(* ================================================================== *)
(** * Theory: the decoded table *)
(* ================================================================== *)

(** A successful decode is the unit normalizer applied to the table of
    the record frames. *)
Lemma fit_to_pandas_ok (file : list Frame) (t : Pd.DataFrame) :
  fit_to_pandas file = Ok t ->
  exists st,
    assembled file = Ok st
    /\ df_activity st = table_of (records file)
    /\ unit_normalizer (table_of (records file)) = Ok t.
Proof.
  rewrite fit_to_pandas_eq. intros H.
  apply bind_ok in H. destruct H as (st & Hst & H).
  exists st. pose proof (assembled_table _ _ Hst) as Hdf.
  rewrite Hdf in H. auto.
Qed.

(** The shape and the cells of the decoded table. *)
Lemma decoded_table (file : list Frame) (t : Pd.DataFrame) :
  fit_to_pandas file = Ok t ->
  Pd.index t = List.length (records file)
  /\ Pd.columns t = first_seen (flat_map known_names (records file))
  /\ forall c cells, Pd.column t c = Some cells ->
       Forall2 (decoded c)
               (map (fun fields => frame_cell fields c) (records file)) cells.
Proof.
  intros H. apply fit_to_pandas_ok in H. destruct H as (st & _ & _ & H).
  apply unit_normalizer_ok in H.
  destruct H as (Hidx & Hcols & _ & _ & Hcells).
  rewrite table_of_columns in Hcols. rewrite table_of_index in Hidx.
  repeat split; [exact Hidx | exact Hcols |].
  intros c cells Hc.
  assert (Hin : In c (Pd.columns (table_of (records file)))).
  { rewrite table_of_columns, <- Hcols. apply column_columns. congruence. }
  apply column_columns in Hin.
  destruct (Pd.column (table_of (records file)) c) as [raw |] eqn:Hraw;
    [| contradiction].
  destruct (Hcells c raw Hraw) as (cells' & Hc' & HF).
  assert (cells' = cells) as -> by congruence.
  apply table_of_column in Hraw.
  pose proof (Forall2_compose _ _ _ _ _ Hraw HF) as Hall.
  eapply Forall2_impl; [| exact Hall].
  intros x y (x' & Hx & Hy). unfold normalized in Hy. unfold decoded.
  destruct (is_position c).
  - exact (to_degrees_stored _ _ _ Hx Hy).
  - now subst y.
Qed.

(** The columns of the decoded table, by membership. *)
Lemma decoded_column_In (file : list Frame) (t : Pd.DataFrame) (c : string) :
  fit_to_pandas file = Ok t ->
  In c (Pd.columns t) <->
  exists fields,
    In fields (records file)
    /\ In c (map field_name fields)
    /\ is_known c = true.
Proof.
  intros H. apply decoded_table in H. destruct H as (_ & -> & _).
  rewrite first_seen_In, in_flat_map.
  split; intros (fields & Hin & Hc); exists fields.
  - apply known_names_In in Hc. tauto.
  - split; [exact Hin | apply known_names_In; tauto].
Qed.

(** The cell of row [i] of the decoded table comes from the [i]-th
    record frame. *)
Lemma decoded_cell (file : list Frame) (t : Pd.DataFrame)
    (c : string) (cells : list scalar) :
  fit_to_pandas file = Ok t ->
  Pd.column t c = Some cells ->
  forall i fields, nth_error (records file) i = Some fields ->
  exists y,
    nth_error cells i = Some y /\ decoded c (frame_cell fields c) y.
Proof.
  intros H Hc i fields Hi.
  apply decoded_table in H. destruct H as (_ & _ & Hcells).
  apply (Forall2_nth _ _ _ (Hcells c cells Hc)).
  rewrite nth_error_map, Hi. reflexivity.
Qed.

Lemma rescalable_total (x : scalar) :
  rescalable x = true -> exists y, to_degrees x = Ok y.
Proof.
  destruct x as [z | f | s | ts]; simpl; try discriminate; [| eauto].
  intros H. apply Z.ltb_lt in H.
  destruct (float_of_int_total z H) as (f & ->). simpl. eauto.
Qed.

(** A decode returns a table when no data frame is named like a field
    of a record frame, each of the two position fields occurs in some
    record frame, and no record frame has a value in either of them
    that [to_degrees] refuses. *)
Lemma decode_returns (file : list Frame) :
  (forall n, In n (flat_map known_names (records file)) ->
             ~ In n (frame_names file)) ->
  (forall c, is_position c = true ->
     (exists fields, In fields (records file) /\ In c (map field_name fields))
     /\ Forall (fun fields => rescalable (frame_cell fields c) = true)
               (records file)) ->
  exists t, fit_to_pandas file = Ok t.
Proof.
  intros Hdis Hpos.
  destruct (harmless_assembled file Hdis) as (st & Hst).
  rewrite fit_to_pandas_eq, Hst. simpl. rewrite (assembled_table _ _ Hst).
  assert (Hcol : forall c, is_position c = true ->
            exists cells,
              Pd.column (table_of (records file)) c = Some cells
              /\ Forall (fun x => exists y, to_degrees x = Ok y) cells).
  { intros c Hc. destruct (Hpos c Hc) as ((fields & Hin & Hf) & Hall).
    assert (Hk : is_known c = true).
    { unfold is_position in Hc. apply orb_true_iff in Hc.
      destruct Hc as [Hc | Hc]; apply String.eqb_eq in Hc; subst; reflexivity. }
    assert (Hcin : In c (Pd.columns (table_of (records file)))).
    { rewrite table_of_columns. apply first_seen_In, in_flat_map.
      exists fields. split; [exact Hin |]. apply known_names_In. tauto. }
    apply column_columns in Hcin.
    destruct (Pd.column (table_of (records file)) c) as [cells |] eqn:Hcells;
      [| contradiction].
    exists cells. split; [reflexivity |].
    apply table_of_column in Hcells.
    assert (Hraw : Forall (fun x => exists y, to_degrees x = Ok y)
                          (map (fun fields => frame_cell fields c)
                               (records file))).
    { apply Forall_map. eapply Forall_impl; [| exact Hall].
      intros fields' H. now apply rescalable_total. }
    clear - Hcells Hraw.
    induction Hcells as [| x y raw cells Hxy _ IH]; constructor.
    - inversion Hraw; subst. eapply to_degrees_stored_total; eauto.
    - inversion Hraw; subst. auto. }
  destruct (Hcol "position_lat" eq_refl) as (lat & Hlat & Hall1).
  destruct (Hcol "position_long" eq_refl) as (long & Hlong & Hall2).
  exact (unit_normalizer_total _ lat long Hlat Hlong Hall1 Hall2).
Qed.

(* ================================================================== *)
(** * Properties of the decoder *)
(* ================================================================== *)

(** The unit normalizer returns a table only for a table that has both
    position columns; without [position_lat] it raises the [KeyError]
    of line 161. *)
Lemma unit_normalizer_requires_positions (df : Pd.DataFrame) :
  ~ In "position_lat" (Pd.columns df) \/ ~ In "position_long" (Pd.columns df) ->
  exists e,
    unit_normalizer df = Raise e
    /\ (~ In "position_lat" (Pd.columns df) -> e = KeyError "position_lat").
Proof.
  intros Habs. destruct (unit_normalizer df) as [t | e] eqn:Hn.
  - apply unit_normalizer_ok in Hn. tauto.
  - exists e. split; [reflexivity |]. intros Hlat.
    rewrite unit_normalizer_eq, normalize_column_missing in Hn.
    + simpl in Hn. congruence.
    + destruct (Pd.column df "position_lat") eqn:Hc; [| reflexivity].
      exfalso. apply Hlat, column_columns. congruence.
Qed.

(** ** C1 *)

(** C1, at a concrete input: a file of one session frame and two lap
    frames has no record frame, and the decode raises
    [KeyError "position_lat"] instead of returning the empty table. *)
Lemma no_records_decode_raises :
  records session_and_laps = []
  /\ fit_to_pandas session_and_laps = Raise (KeyError "position_lat").
Proof. split; reflexivity. Qed.

(** C1, as the code has it: for every frame sequence without record
    frames the loop over the frames ends without an error and leaves the
    empty table (no row, no column) in [df_activity]; the decode then
    raises [KeyError "position_lat"] in the unit normalizer and returns
    no table. *)
Theorem no_records_empty_then_key_error (file : list Frame) :
  records file = [] ->
  (exists st,
     assembled file = Ok st
     /\ df_activity st = Pd.empty
     /\ Pd.index (df_activity st) = 0%nat
     /\ Pd.columns (df_activity st) = [])
  /\ fit_to_pandas file = Raise (KeyError "position_lat").
Proof.
  intros Hrec. destruct (no_record_assembled file Hrec) as (st & Hst & Hdf).
  split.
  - exists st. rewrite Hdf. repeat split; auto.
  - rewrite fit_to_pandas_eq, Hst. simpl. rewrite Hdf. reflexivity.
Qed.

Lemma no_records_empty_then_key_error_witness :
  records session_and_laps = []
  /\ (exists st,
        assembled session_and_laps = Ok st
        /\ df_activity st = Pd.empty
        /\ Pd.index (df_activity st) = 0%nat
        /\ Pd.columns (df_activity st) = [])
  /\ fit_to_pandas session_and_laps = Raise (KeyError "position_lat").
Proof.
  split; [reflexivity |].
  exact (no_records_empty_then_key_error session_and_laps eq_refl).
Defined.

(** ** C2 *)

(** C2: when the file has at least one record frame and the assembled
    table lacks [position_lat] or [position_long], the unit normalizer
    raises, the exception is the outcome of the whole decode, and no
    table is returned; without [position_lat] the exception is
    [KeyError "position_lat"]. *)
Theorem missing_position_column_fails (file : list Frame) (st : locals) :
  (1 <= List.length (records file))%nat ->
  assembled file = Ok st ->
  ~ In "position_lat" (Pd.columns (df_activity st))
  \/ ~ In "position_long" (Pd.columns (df_activity st)) ->
  exists e,
    unit_normalizer (df_activity st) = Raise e
    /\ fit_to_pandas file = Raise e
    /\ (~ In "position_lat" (Pd.columns (df_activity st)) ->
        e = KeyError "position_lat").
Proof.
  intros _ Hst Habs.
  destruct (unit_normalizer_requires_positions _ Habs) as (e & He & Hlat).
  exists e. rewrite fit_to_pandas_eq, Hst. simpl. auto.
Qed.

Lemma indoor_run_no_position :
  ~ In "position_lat" (Pd.columns (df_activity indoor_run_state)).
Proof. simpl. intros [H | []]. discriminate H. Qed.

Lemma missing_position_column_fails_witness :
  (1 <= List.length (records indoor_run))%nat
  /\ assembled indoor_run = Ok indoor_run_state
  /\ exists e,
       unit_normalizer (df_activity indoor_run_state) = Raise e
       /\ fit_to_pandas indoor_run = Raise e
       /\ (~ In "position_lat" (Pd.columns (df_activity indoor_run_state)) ->
           e = KeyError "position_lat").
Proof.
  split; [simpl; lia |]. split; [reflexivity |].
  apply (missing_position_column_fails indoor_run indoor_run_state).
  - simpl; lia.
  - reflexivity.
  - left. exact indoor_run_no_position.
Defined.

(** ** C3 *)

(** C3: the decoded table has one row per data frame named "record" and
    none for the other frames; every column has that many cells, and
    the cell of row [i] comes from the [i]-th record frame of the file,
    so the rows follow the order of the record frames.  The cell is the
    value of the frame rescaled once in the two position columns;
    elsewhere it is the value of the frame as the table stores it,
    which is the value itself or, for an integer in a column that
    pandas has turned into floats, the nearest float; it is the missing
    marker when the frame has no such field. *)
Theorem rows_follow_records (file : list Frame) (t : Pd.DataFrame) :
  fit_to_pandas file = Ok t ->
  Pd.index t = List.length (records file)
  /\ forall c cells, Pd.column t c = Some cells ->
       List.length cells = Pd.index t
       /\ forall i fields, nth_error (records file) i = Some fields ->
            exists y,
              nth_error cells i = Some y
              /\ decoded c (frame_cell fields c) y.
Proof.
  intros H. pose proof (decoded_table _ _ H) as (Hidx & _ & Hcells).
  split; [exact Hidx |]. intros c cells Hc. split.
  - specialize (Hcells c cells Hc).
    apply Forall2_length in Hcells. rewrite length_map in Hcells. congruence.
  - apply (decoded_cell file t c cells H Hc).
Qed.

Lemma rows_follow_records_witness :
  fit_to_pandas sparse_records = Ok sparse_table
  /\ Pd.index sparse_table = 2%nat
  /\ List.length [SFloat float_142; NaN] = Pd.index sparse_table
  /\ exists y,
       nth_error [SFloat float_142; NaN] 0 = Some y
       /\ decoded "heart_rate" (SInt 142) y.
Proof.
  split; [reflexivity |].
  split;
    [exact (proj1 (rows_follow_records sparse_records sparse_table eq_refl)) |].
  split.
  - exact (proj1 (proj2 (rows_follow_records sparse_records sparse_table
                           eq_refl)
                        "heart_rate" _ eq_refl)).
  - exact (proj2 (proj2 (rows_follow_records sparse_records sparse_table
                           eq_refl)
                        "heart_rate" _ eq_refl)
                 0%nat _ eq_refl).
Defined.

(** ** C4 *)

(** C4: a field whose name contains "unknown" at any position is never
    put into the row dict of a record frame, and its name is a column
    neither of the assembled table nor of the decoded table. *)
Theorem placeholder_fields_excluded (name pre post : string) :
  name = (pre ++ "unknown" ++ post)%string ->
  (forall good_list fields h h' row_dict,
     for_each (field_step good_list fields) fields (h, []) = Ok (h', row_dict) ->
     dict_get name row_dict = None)
  /\ (forall file st,
        assembled file = Ok st -> ~ In name (Pd.columns (df_activity st)))
  /\ (forall file t,
        fit_to_pandas file = Ok t -> ~ In name (Pd.columns t)).
Proof.
  intros Hname.
  assert (Hk : is_known name = false) by (apply is_known_spec; eauto).
  assert (Hnot : forall fields, ~ In name (known_names fields)).
  { intros fields Hin. apply known_names_In in Hin. destruct Hin. congruence. }
  assert (Hcols : forall rows, ~ In name (first_seen (flat_map known_names rows))).
  { intros rows Hin. apply first_seen_In, in_flat_map in Hin.
    destruct Hin as (fields & _ & Hin). exact (Hnot fields Hin). }
  split; [| split].
  - intros good_list fields h h' row_dict Hloop.
    destruct (row_dict_built good_list fields h) as (h'' & Hrow).
    rewrite Hrow in Hloop. injection Hloop as _ <-.
    destruct (dict_get name (row_of fields)) eqn:Hget; [| reflexivity].
    exfalso. apply (Hnot fields).
    rewrite <- first_seen_In, <- row_of_keys. apply dict_get_keys. congruence.
  - intros file st Hst. rewrite (assembled_table _ _ Hst), table_of_columns.
    apply Hcols.
  - intros file t Ht. apply decoded_table in Ht.
    destruct Ht as (_ & -> & _). apply Hcols.
Qed.

Lemma placeholder_fields_excluded_witness :
  "unknown_87" = (EmptyString ++ "unknown" ++ "_87")%string
  /\ ~ In "unknown_87" (Pd.columns sparse_table).
Proof.
  split; [reflexivity |].
  exact (proj2 (proj2 (placeholder_fields_excluded
                         "unknown_87" EmptyString "_87" eq_refl))
               sparse_records sparse_table eq_refl).
Defined.

(** ** C5 *)

(** C5: the columns of the decoded table are the names of the fields
    without the marker of all record frames, each name once, in the
    order in which the names first occur in the file. *)
Theorem columns_first_seen (file : list Frame) (t : Pd.DataFrame) :
  fit_to_pandas file = Ok t ->
  Pd.columns t = first_seen (flat_map known_names (records file))
  /\ NoDup (Pd.columns t)
  /\ forall c, In c (Pd.columns t) <->
       exists fields,
         In fields (records file)
         /\ In c (map field_name fields)
         /\ is_known c = true.
Proof.
  intros H. pose proof (decoded_table _ _ H) as (_ & Hcols & _).
  split; [exact Hcols |]. split.
  - rewrite Hcols. apply first_seen_NoDup.
  - intros c. apply decoded_column_In, H.
Qed.

Lemma columns_first_seen_witness :
  fit_to_pandas sparse_records = Ok sparse_table
  /\ Pd.columns sparse_table = ["position_lat"; "heart_rate"; "position_long"].
Proof.
  split; [reflexivity |].
  exact (proj1 (columns_first_seen sparse_records sparse_table eq_refl)).
Defined.

(** ** C6 *)

Lemma float_180_is_180 : float_of_int 180 = Ok float_180.
Proof. reflexivity. Qed.

Lemma is_position_known (c : string) :
  is_position c = true -> is_known c = true.
Proof.
  unfold is_position. intros H. apply orb_true_iff in H.
  destruct H as [H | H]; apply String.eqb_eq in H; subst; reflexivity.
Qed.

(** C6: in the two position columns of the decoded table, the cell of
    a record frame whose field holds the integer [v] is the float
    [v / ((2**32) / 360)]; and three record frames with
    [position_lat = 2147483648] and [position_long = 0] together with
    one event frame, wherever the event frame stands and whatever its
    fields are, decode to three rows with [position_lat] 180.0 and
    [position_long] 0.0 in each. *)
Theorem positions_rescaled_to_degrees :
  (forall file t c cells,
     fit_to_pandas file = Ok t ->
     is_position c = true ->
     Pd.column t c = Some cells ->
     forall i fields v,
       nth_error (records file) i = Some fields ->
       get_value fields c = Ok (SInt v) ->
       exists f,
         float_of_int v = Ok f
         /\ nth_error cells i
            = Some (SFloat (float_div f semicircles_per_degree)))
  /\ (forall k fields,
        (k <= 3)%nat ->
        fit_to_pandas (three_records_one_event k fields)
        = Ok (Pd.mkDataFrame 3
                [("position_lat",
                  [SFloat float_180; SFloat float_180; SFloat float_180]);
                 ("position_long",
                  [SFloat float_0; SFloat float_0; SFloat float_0])])).
Proof.
  split.
  - intros file t c cells H Hpos Hc i fields v Hi Hv.
    destruct (decoded_cell file t c cells H Hc i fields Hi) as (y & Hy & Hn).
    unfold decoded in Hn. rewrite Hpos in Hn.
    unfold frame_cell in Hn.
    rewrite (is_position_known c Hpos), Hv in Hn.
    simpl in Hn. apply bind_ok in Hn. destruct Hn as (f & Hf & Hn).
    injection Hn as <-. eauto.
  - intros k fields Hk.
    destruct k as [| [| [| [| k]]]]; [reflexivity .. | lia].
Qed.

Lemma positions_rescaled_to_degrees_witness :
  fit_to_pandas sparse_records = Ok sparse_table
  /\ exists f,
       float_of_int 2147483648 = Ok f
       /\ nth_error [SFloat float_180; SFloat float_180] 0
          = Some (SFloat (float_div f semicircles_per_degree)).
Proof.
  split; [reflexivity |].
  apply (proj1 positions_rescaled_to_degrees
           sparse_records sparse_table "position_lat" _
           eq_refl eq_refl eq_refl 0%nat _ 2147483648 eq_refl eq_refl).
Defined.

(** ** C7 *)

(** C7: when a field without the marker occurs in record frame [i] and
    not in record frame [j], the decoded table has a column of that
    name and its cell in row [j] is the missing marker [NaN], which is
    neither the integer zero nor the empty string. *)
Theorem absent_field_is_missing (file : list Frame) (t : Pd.DataFrame) :
  fit_to_pandas file = Ok t ->
  forall i j frame_i frame_j name,
    nth_error (records file) i = Some frame_i ->
    nth_error (records file) j = Some frame_j ->
    In name (map field_name frame_i) ->
    is_known name = true ->
    ~ In name (map field_name frame_j) ->
    exists cells,
      Pd.column t name = Some cells
      /\ nth_error cells j = Some NaN
      /\ NaN <> SInt 0 /\ NaN <> SStr "".
Proof.
  intros H i j frame_i frame_j name Hi Hj Hin Hk Hout.
  assert (Hc : In name (Pd.columns t)).
  { apply (decoded_column_In file t name H). exists frame_i. split; [| tauto].
    eapply nth_error_In; eassumption. }
  apply column_columns in Hc.
  destruct (Pd.column t name) as [cells |] eqn:Hcol; [| congruence].
  exists cells. split; [reflexivity |].
  split; [| split; discriminate].
  destruct (decoded_cell file t name cells H Hcol j frame_j Hj) as (y & Hy & Hn).
  rewrite frame_cell_absent in Hn.
  - rewrite Hy. f_equal. unfold decoded in Hn.
    destruct (is_position name); [| now apply stored_as_NaN].
    simpl in Hn. now injection Hn as <-.
  - rewrite known_names_In. tauto.
Qed.

Lemma absent_field_is_missing_witness :
  fit_to_pandas sparse_records = Ok sparse_table
  /\ exists cells,
       Pd.column sparse_table "heart_rate" = Some cells
       /\ nth_error cells 1 = Some NaN
       /\ NaN <> SInt 0 /\ NaN <> SStr "".
Proof.
  split; [reflexivity |].
  apply (absent_field_is_missing sparse_records sparse_table eq_refl
           0%nat 1%nat _ _ "heart_rate" eq_refl eq_refl).
  - simpl. tauto.
  - reflexivity.
  - simpl. intros [H | [H | []]]; discriminate H.
Defined.

(** ** C8 *)

(** The loop over the fields does not raise, so the loop over the
    frames raises nothing but the [TypeError] of the tally. *)
Lemma frames_loop_raise (check_list good_list : ref) (file : list Frame) :
  forall st e,
  for_each (frame_step check_list good_list) file st = Raise e ->
  e = TypeError.
Proof.
  induction file as [| frame file IH]; simpl; intros st e H; [discriminate |].
  destruct (frame_step check_list good_list st frame) as [st1 | e1] eqn:Hstep;
    simpl in H; [eauto |].
  injection H as <-.
  destruct frame as [name fields |]; simpl in Hstep; [| discriminate].
  unfold tally in Hstep.
  destruct (negb _); simpl in Hstep.
  - destruct (String.eqb name "record"); [| discriminate].
    match type of Hstep with
    | context [for_each ?b fields (?h, [])] =>
        destruct (row_dict_built good_list fields h) as (h' & Hrow);
        rewrite Hrow in Hstep
    end.
    discriminate.
  - destruct (dict_get name (list_check st)); simpl in Hstep; [| congruence].
    destruct (String.eqb name "record"); [| discriminate].
    match type of Hstep with
    | context [for_each ?b fields (?h, [])] =>
        destruct (row_dict_built good_list fields h) as (h' & Hrow);
        rewrite Hrow in Hstep
    end.
    discriminate.
Qed.

Lemma no_tally_loop_table (good_list : ref) (file : list Frame) :
  forall (st : locals) (rows : list (list Field)),
  df_activity st = table_of rows ->
  exists st',
    for_each (frame_step_no_tally good_list) file st = Ok st'
    /\ df_activity st' = table_of (rows ++ records file).
Proof.
  induction file as [| [name fields |] file IH]; intros st rows Hdf.
  - exists st. simpl. now rewrite app_nil_r.
  - simpl. destruct (String.eqb name "record").
    + destruct (row_dict_built good_list fields (lists st)) as (h' & ->).
      simpl.
      change (fields :: records file) with ([fields] ++ records file).
      rewrite app_assoc. apply IH. simpl.
      rewrite Hdf. apply concat_table_of.
    + apply IH, Hdf.
  - simpl. apply IH, Hdf.
Qed.

Lemma fit_to_pandas_no_tally_eq (file : list Frame) :
  fit_to_pandas_no_tally file = unit_normalizer (table_of (records file)).
Proof.
  unfold fit_to_pandas_no_tally. simpl.
  match goal with
  | |- context [for_each _ file ?st] =>
      destruct (no_tally_loop_table 0%nat file st [] eq_refl) as (st' & -> & Hdf)
  end.
  simpl. now rewrite Hdf.
Qed.

(** The tally leaves the table alone: with the tally the decode either
    has the outcome it has without the tally, or raises the
    [TypeError] of the tally. *)
Lemma tally_effect (file : list Frame) :
  fit_to_pandas file = fit_to_pandas_no_tally file
  \/ fit_to_pandas file = Raise TypeError.
Proof.
  rewrite fit_to_pandas_eq, fit_to_pandas_no_tally_eq.
  destruct (assembled file) as [st | e] eqn:Hst; simpl.
  - left. now rewrite (assembled_table _ _ Hst).
  - right. f_equal. eapply frames_loop_raise. exact Hst.
Qed.

(** C8, at an input where the claim fails: a record frame with a field
    named "lap" followed by a frame named "lap".  With the tally the
    decode raises [TypeError]; with lines 135-139 removed it returns
    the table of the record frame. *)
Theorem tally_changes_outcome :
  fit_to_pandas record_then_lap = Raise TypeError
  /\ fit_to_pandas_no_tally record_then_lap
     = Ok (Pd.mkDataFrame 1
             [("timestamp", [STimestamp 1000]);
              ("position_lat", [SFloat float_180]);
              ("position_long", [SFloat float_0]);
              ("lap", [SInt 1])]).
Proof. split; reflexivity. Qed.

(** ** C9 *)

(** C9: rescaling is not idempotent - for every integer [v] other than
    zero, rescaling the rescaled value gives a float different from
    it (and the first rescaling returns a float for every [v] below
    [2 ** 1023] in absolute value); and a decode rescales each cell of
    the two position columns exactly once.  A file in which no data
    frame is named like a field of a record frame, each position field
    occurs in some record frame and every position value is a number
    that converts to a float does decode to a table, and in that table,
    as in every decoded table, each cell of the two position columns,
    which the table always has, is [to_degrees] of the cell that the
    record frame contributes. *)
Theorem rescaling_once_not_idempotent :
  (forall v y,
     v <> 0 -> to_degrees (SInt v) = Ok y ->
     exists z, to_degrees y = Ok z /\ z <> y)
  /\ (forall v, Z.abs v < 2 ^ 1023 -> exists y, to_degrees (SInt v) = Ok y)
  /\ (forall file,
        (forall n, In n (flat_map known_names (records file)) ->
                   ~ In n (frame_names file)) ->
        (forall c, is_position c = true ->
           (exists fields,
              In fields (records file) /\ In c (map field_name fields))
           /\ Forall (fun fields => rescalable (frame_cell fields c) = true)
                     (records file)) ->
        exists t,
          fit_to_pandas file = Ok t
          /\ forall c, is_position c = true ->
               exists cells,
                 Pd.column t c = Some cells
                 /\ Forall2 (fun x y => to_degrees x = Ok y)
                            (map (fun fields => frame_cell fields c)
                                 (records file))
                            cells)
  /\ (forall file t c cells,
        fit_to_pandas file = Ok t ->
        is_position c = true ->
        Pd.column t c = Some cells ->
        Forall2 (fun x y => to_degrees x = Ok y)
                (map (fun fields => frame_cell fields c) (records file))
                cells)
  /\ (forall file t,
        fit_to_pandas file = Ok t ->
        exists lat long,
          Pd.column t "position_lat" = Some lat
          /\ Pd.column t "position_long" = Some long).
Proof.
  assert (Hcells : forall file t c cells,
            fit_to_pandas file = Ok t ->
            is_position c = true ->
            Pd.column t c = Some cells ->
            Forall2 (fun x y => to_degrees x = Ok y)
                    (map (fun fields => frame_cell fields c) (records file))
                    cells).
  { intros file t c cells H Hpos Hc.
    apply decoded_table in H. destruct H as (_ & _ & Hcells).
    specialize (Hcells c cells Hc).
    unfold decoded in Hcells. now rewrite Hpos in Hcells. }
  assert (Hboth : forall file t,
            fit_to_pandas file = Ok t ->
            In "position_lat" (Pd.columns t)
            /\ In "position_long" (Pd.columns t)).
  { intros file t H. apply fit_to_pandas_ok in H.
    destruct H as (_ & _ & _ & H). apply unit_normalizer_ok in H.
    destruct H as (_ & Hcols & Hlat & Hlong & _).
    now rewrite <- Hcols in Hlat, Hlong. }
  split; [exact to_degrees_twice |]. split; [| split; [| split]].
  - intros v Hv. destruct (float_of_int_total v Hv) as (f & Hf).
    unfold to_degrees. rewrite Hf. simpl. eauto.
  - intros file Hdis Hpos.
    destruct (decode_returns file Hdis Hpos) as (t & Ht).
    exists t. split; [exact Ht |]. intros c Hc.
    assert (Hin : In c (Pd.columns t)).
    { destruct (Hboth file t Ht) as (Hlat & Hlong).
      unfold is_position in Hc. apply orb_true_iff in Hc.
      destruct Hc as [Hc | Hc]; apply String.eqb_eq in Hc; now subst. }
    apply column_columns in Hin.
    destruct (Pd.column t c) as [cells |] eqn:Hcol; [| contradiction].
    exists cells. split; [reflexivity |]. exact (Hcells file t c cells Ht Hc Hcol).
  - exact Hcells.
  - intros file t H. destruct (Hboth file t H) as (Hlat & Hlong).
    apply column_columns in Hlat, Hlong.
    destruct (Pd.column t "position_lat") as [lat |]; [| congruence].
    destruct (Pd.column t "position_long") as [long |]; [| congruence].
    eauto.
Qed.

Lemma rescaling_once_not_idempotent_witness :
  (2147483648 <> 0
   /\ to_degrees (SInt 2147483648) = Ok (SFloat float_180)
   /\ exists z,
        to_degrees (SFloat float_180) = Ok z /\ z <> SFloat float_180)
  /\ fit_to_pandas sparse_records = Ok sparse_table
  /\ exists t,
       fit_to_pandas sparse_records = Ok t
       /\ forall c, is_position c = true ->
            exists cells,
              Pd.column t c = Some cells
              /\ Forall2 (fun x y => to_degrees x = Ok y)
                         (map (fun fields => frame_cell fields c)
                              (records sparse_records))
                         cells.
Proof.
  split; [| split; [reflexivity |]].
  - split; [discriminate |]. split; [reflexivity |].
    apply (proj1 rescaling_once_not_idempotent 2147483648 (SFloat float_180)).
    + discriminate.
    + reflexivity.
  - apply (proj1 (proj2 (proj2 rescaling_once_not_idempotent)) sparse_records).
    + intros n Hn Hf. simpl in Hn, Hf.
      repeat (destruct Hn as [<- | Hn];
              [repeat (destruct Hf as [Hf | Hf]; [discriminate Hf |]);
               exact Hf |]).
      exact Hn.
    + intros c Hc. unfold is_position in Hc. apply orb_true_iff in Hc.
      destruct Hc as [Hc | Hc]; apply String.eqb_eq in Hc; subst; split;
        try (repeat constructor);
        exists [mkField "position_long" (SInt 0);
                mkField "position_lat" (SInt 2147483648)];
        simpl; tauto.
Defined.

(** ** C10 *)

(** The loop over the fields only appends to the list behind
    [good_list], and it appends every field name without the marker
    that the list does not hold yet. *)
Lemma field_loop_heap (good_list : ref) (all fs : list Field) :
  forall h row h' row',
  for_each (field_step good_list all) fs (h, row) = Ok (h', row') ->
  (forall r x, In x (deref h r) -> In x (deref h' r))
  /\ (forall x, In x (known_names fs) -> In x (deref h' good_list)).
Proof.
  unfold known_names.
  induction fs as [| f fs IH]; simpl; intros h row h' row' H.
  - injection H as <- <-. split; [auto | intros x []].
  - fold (is_known (field_name f)) in H |- *.
    destruct (is_known (field_name f)) eqn:Hk; simpl in H |- *.
    + destruct (get_value all (field_name f)) as [v | e]; [| discriminate].
      simpl in H. apply IH in H. destruct H as (Hmono & Hnew).
      rewrite andb_true_r in Hmono.
      destruct (list_in (field_name f) (deref h good_list)) eqn:Hin;
        simpl in Hmono.
      * split; [exact Hmono |].
        intros x [<- | Hx]; [| auto].
        apply Hmono. now apply list_in_iff.
      * split.
        -- intros r x Hx. apply Hmono.
           destruct (Nat.eq_dec r good_list) as [-> | Hne].
           ++ rewrite deref_append. apply in_or_app. now left.
           ++ now rewrite deref_append_other.
        -- intros x [<- | Hx]; [| auto].
           apply Hmono. rewrite deref_append. apply in_or_app. right. now left.
    + apply IH in H. exact H.
Qed.

Lemma tally_lists (check_list : ref) (name : string) (st st' : locals) :
  tally check_list name st = Ok st' ->
  (forall r x, In x (deref (lists st) r) -> In x (deref (lists st') r))
  /\ (forall n, n <> name -> dict_get n (list_check st) = None ->
                dict_get n (list_check st') = None).
Proof.
  unfold tally.
  destruct (negb _); [| destruct (dict_get name _)]; intros H;
    try discriminate; injection H as <-; simpl; split.
  - intros r x Hx. destruct (Nat.eq_dec r check_list) as [-> | Hne].
    + rewrite deref_append. apply in_or_app. now left.
    + now rewrite deref_append_other.
  - intros n Hne Hn. rewrite dict_get_set.
    destruct (String.eqb_spec n name); [contradiction | exact Hn].
  - auto.
  - intros n Hne Hn. rewrite dict_get_set.
    destruct (String.eqb_spec n name); [contradiction | exact Hn].
Qed.

(** One frame keeps the names that the lists hold, keeps a name
    without a count as long as the frame is not named so, and a record
    frame puts the names of its fields without the marker in the list
    behind [good_list]. *)
Lemma frame_step_lists (check_list good_list : ref) (st st' : locals)
    (frame : Frame) :
  frame_step check_list good_list st frame = Ok st' ->
  (forall r x, In x (deref (lists st) r) -> In x (deref (lists st') r))
  /\ (forall n, frame_named n frame = false ->
                dict_get n (list_check st) = None ->
                dict_get n (list_check st') = None)
  /\ (forall n, In n (flat_map known_names (records [frame])) ->
                In n (deref (lists st') good_list)).
Proof.
  destruct frame as [name fields |]; simpl; intros H.
  - apply bind_ok in H. destruct H as (st1 & Ht & H).
    apply tally_lists in Ht. destruct Ht as (Hmono & Hcount).
    assert (Hc : forall n, String.eqb name n = false ->
                 dict_get n (list_check st) = None ->
                 dict_get n (list_check st1) = None).
    { intros n Hn. apply Hcount. intros ->. now rewrite String.eqb_refl in Hn. }
    destruct (String.eqb name "record"); simpl.
    + apply bind_ok in H. destruct H as ([h row] & Hloop & H).
      injection H as <-. simpl.
      apply field_loop_heap in Hloop. destruct Hloop as (Hmono' & Hnew).
      split; [auto |]. split; [exact Hc |].
      intros n Hn. rewrite app_nil_r in Hn. auto.
    + injection H as <-. split; [exact Hmono |]. split; [exact Hc |].
      intros n [].
  - injection H as <-. split; [auto |]. split; [auto | intros n []].
Qed.

Lemma frames_loop_lists (check_list good_list : ref) (file : list Frame) :
  forall st st',
  for_each (frame_step check_list good_list) file st = Ok st' ->
  (forall r x, In x (deref (lists st) r) -> In x (deref (lists st') r))
  /\ (forall n, existsb (frame_named n) file = false ->
                dict_get n (list_check st) = None ->
                dict_get n (list_check st') = None)
  /\ (forall n, In n (flat_map known_names (records file)) ->
                In n (deref (lists st') good_list)).
Proof.
  induction file as [| frame file IH]; intros st st' H; simpl in H.
  - injection H as <-. simpl. repeat split; auto. intros n [].
  - apply bind_ok in H. destruct H as (st1 & Hstep & H).
    apply frame_step_lists in Hstep. destruct Hstep as (Hm1 & Hc1 & Hn1).
    apply IH in H. destruct H as (Hm & Hc & Hn).
    split; [auto |]. split.
    + intros n Hex. simpl in Hex. apply orb_false_iff in Hex.
      destruct Hex. auto.
    + intros n Hin.
      change (frame :: file) with ([frame] ++ file) in Hin.
      rewrite records_app, flat_map_app in Hin.
      apply in_app_or in Hin. destruct Hin; auto.
Qed.

(** With one list object behind both names, a data frame named like a
    field of an earlier record frame makes the tally raise, unless a
    frame of that name came before the list held the name. *)
Lemma shared_list_raises (l : ref) (h : heap)
    (before after : list Frame) (name : string) (fields : list Field) :
  In name (flat_map known_names (records before)) ->
  existsb (frame_named name) before = false ->
  read_frames l l h (before ++ FitDataMessage name fields :: after)
  = Raise TypeError.
Proof.
  intros Hin Hex. unfold read_frames. rewrite for_each_app.
  destruct (for_each _ before _) as [st | e] eqn:Hloop; simpl.
  - apply frames_loop_lists in Hloop. destruct Hloop as (_ & Hc & Hn).
    specialize (Hc name Hex eq_refl). specialize (Hn name Hin).
    unfold tally. apply list_in_iff in Hn. rewrite Hn, Hc. reflexivity.
  - f_equal. eapply frames_loop_raise. exact Hloop.
Qed.

Lemma shared_list_decode_raises (before after : list Frame) (name : string)
    (fields : list Field) :
  In name (flat_map known_names (records before)) ->
  existsb (frame_named name) before = false ->
  fit_to_pandas (before ++ FitDataMessage name fields :: after)
  = Raise TypeError.
Proof.
  intros Hin Hex. rewrite fit_to_pandas_eq. unfold assembled. simpl.
  now rewrite shared_list_raises.
Qed.

(** C10: there is a file - a record frame with the fields "timestamp",
    "position_lat", "position_long" and "lap", then a data frame named
    "lap" - on which the record frame is read without an error, the
    tally of the second frame raises [TypeError] because the name
    "lap" is in the shared list and has no count, and the decode raises
    that [TypeError]; with two list objects in place of the shared one
    the same file decodes to a table. *)
Theorem shared_list_breaks_tally :
  exists (name : string) (fields later : list Field) (st : locals)
         (t : Pd.DataFrame),
    record_then_lap
    = [FitDataMessage "record" fields; FitDataMessage name later]
    /\ In name (map field_name fields)
    /\ is_known name = true
    /\ assembled [FitDataMessage "record" fields] = Ok st
    /\ In name (deref (lists st) (fst (new_list empty_heap)))
    /\ dict_get name (list_check st) = None
    /\ tally (fst (new_list empty_heap)) name st = Raise TypeError
    /\ fit_to_pandas record_then_lap = Raise TypeError
    /\ fit_to_pandas_two_lists record_then_lap = Ok t.
Proof.
  exists "lap".
  eexists. eexists. eexists. eexists.
  split; [reflexivity |].
  split; [simpl; tauto |].
  split; [reflexivity |].
  split; [reflexivity |].
  split; [simpl; tauto |].
  repeat split.
Qed.

(* ================================================================== *)
(** * Further properties of [fit_to_pandas] *)
(* ================================================================== *)

(** X1: the tally of lines 135-139 cannot change a decoded table and
    cannot turn a failing decode into a table: the outcome of
    [fit_to_pandas] is the outcome of the function without the tally,
    or the [TypeError] of line 139. *)
Theorem tally_only_adds_type_error (file : list Frame) :
  fit_to_pandas file = fit_to_pandas_no_tally file
  \/ fit_to_pandas file = Raise TypeError.
Proof. apply tally_effect. Qed.

(** X2: a data frame named like a field without the marker of an
    earlier record frame makes the decode raise [TypeError], whatever
    comes after it, unless a data frame of that name already stood
    before it. *)
Theorem field_name_as_frame_name_raises (before after : list Frame)
    (name : string) (fields : list Field) :
  In name (flat_map known_names (records before)) ->
  existsb (frame_named name) before = false ->
  fit_to_pandas (before ++ FitDataMessage name fields :: after)
  = Raise TypeError.
Proof. apply shared_list_decode_raises. Qed.

Lemma field_name_as_frame_name_raises_witness :
  In "lap" (flat_map known_names (records (firstn 1 record_then_lap)))
  /\ fit_to_pandas record_then_lap = Raise TypeError.
Proof.
  split; [simpl; tauto |].
  apply (field_name_as_frame_name_raises
           (firstn 1 record_then_lap) [] "lap"
           [mkField "timestamp" (STimestamp 1001)]).
  - simpl; tauto.
  - reflexivity.
Defined.

Lemma frame_names_named (file : list Frame) (n : string) :
  In n (frame_names file) <-> existsb (frame_named n) file = true.
Proof.
  induction file as [| [name fields |] file IH]; simpl.
  - split; [tauto | discriminate].
  - rewrite orb_true_iff, <- IH, String.eqb_eq. tauto.
  - exact IH.
Qed.

(** X3: when no data frame of the file is named like a field without
    the marker of one of its record frames, the shared list of line 124
    does no harm: the decode has the outcome of the function without
    the tally. *)
Theorem distinct_names_tally_harmless (file : list Frame) :
  (forall n, In n (flat_map known_names (records file)) ->
             ~ In n (frame_names file)) ->
  fit_to_pandas file = fit_to_pandas_no_tally file.
Proof.
  intros Hdis.
  destruct (harmless_loop (flat_map known_names (records file))
              (fst (new_list empty_heap)) file) with
    (st := mkLocals (snd (new_list empty_heap)) [] Pd.empty) as (st & Hst).
  - intros n Hn Hf. exact (Hdis n Hf Hn).
  - auto.
  - intros n [].
  - rewrite fit_to_pandas_eq, fit_to_pandas_no_tally_eq.
    change (assembled file = Ok st) in Hst.
    rewrite Hst. simpl. now rewrite (assembled_table _ _ Hst).
Qed.

Lemma distinct_names_tally_harmless_witness :
  fit_to_pandas sparse_records = fit_to_pandas_no_tally sparse_records.
Proof.
  apply (distinct_names_tally_harmless sparse_records).
  intros n Hn Hf. simpl in Hn, Hf.
  repeat (destruct Hn as [<- | Hn];
          [repeat (destruct Hf as [Hf | Hf]; [discriminate Hf |]);
           exact Hf |]).
  exact Hn.
Defined.

Lemma to_degrees_numbers (xs ys : list scalar) :
  Forall2 (fun x y => to_degrees x = Ok y) xs ys ->
  Forall (fun y => is_float y = true) ys
  /\ Forall (fun x => is_number x = true) xs.
Proof.
  induction 1 as [| x y xs ys Hxy _ [IH1 IH2]]; [split; constructor |].
  assert (Hx : is_float y = true /\ is_number x = true).
  { destruct x as [z | f | s | ts]; simpl in Hxy; try discriminate.
    - destruct (float_of_int z); simpl in Hxy; [| discriminate].
      injection Hxy as <-. auto.
    - injection Hxy as <-. auto. }
  split; constructor; tauto.
Qed.

(** X4: a decoded table holds floats only in its two position columns,
    and the decode returns a table only when no record frame of the
    file has a string or a timestamp in a position field: such a value
    makes the decode raise. *)
Theorem decoded_positions_are_floats (file : list Frame) (t : Pd.DataFrame)
    (c : string) (cells : list scalar) :
  fit_to_pandas file = Ok t ->
  is_position c = true ->
  Pd.column t c = Some cells ->
  Forall (fun y => is_float y = true) cells
  /\ Forall (fun fields => is_number (frame_cell fields c) = true)
            (records file).
Proof.
  intros H Hpos Hc. apply decoded_table in H. destruct H as (_ & _ & Hcells).
  specialize (Hcells c cells Hc). unfold decoded in Hcells.
  rewrite Hpos in Hcells. apply to_degrees_numbers in Hcells.
  destruct Hcells as (H1 & H2). split; [exact H1 |].
  now apply Forall_map in H2.
Qed.

Lemma decoded_positions_are_floats_witness :
  fit_to_pandas sparse_records = Ok sparse_table
  /\ Forall (fun y => is_float y = true) [SFloat float_180; SFloat float_180].
Proof.
  split; [reflexivity |].
  exact (proj1 (decoded_positions_are_floats sparse_records sparse_table
                  "position_lat" _ eq_refl eq_refl eq_refl)).
Defined.

Lemma float_of_int_sign (v : Z) (f : float) :
  v <> 0 -> float_of_int v = Ok f ->
  exists m e,
    f = S754_finite (v <? 0) m e
    /\ Zpos m < 2 ^ 53
    /\ 1 <= Zpos (digits2_pos m) + e
    /\ e <= 971.
Proof.
  intros Hv. unfold float_of_int, binary_normalize.
  destruct v as [| p | p]; [contradiction | |].
  - destruct (binary_round_int false p) as (m & e & -> & Hm & Hmag & _).
    destruct (Z.leb_spec e 971); [| discriminate].
    intros [= <-]. exists m, e. auto.
  - destruct (binary_round_int true p) as (m & e & -> & Hm & Hmag & _).
    destruct (Z.leb_spec e 971); [| discriminate].
    intros [= <-]. exists m, e. auto.
Qed.

(** X5: rescaling an integer below [2 ** 1023] in absolute value never
    raises and never yields NaN or an infinity: the result is a finite
    float that is not zero and has the sign of the integer, and
    positive zero for the integer zero. *)
Theorem to_degrees_of_int (v : Z) :
  Z.abs v < 2 ^ 1023 ->
  if v =? 0 then to_degrees (SInt v) = Ok (SFloat (S754_zero false))
  else exists m e,
         to_degrees (SInt v) = Ok (SFloat (S754_finite (v <? 0) m e)).
Proof.
  intros Hv. destruct (Z.eqb_spec v 0) as [-> | Hne]; [reflexivity |].
  destruct (float_of_int_total v Hv) as (f & Hf).
  destruct (float_of_int_sign v f Hne Hf) as (m & e & -> & Hm & Hmag & He).
  destruct (div_semicircles (v <? 0) m e Hm) as (m' & e' & Hdiv & _);
    [lia | lia |].
  exists m', e'. unfold to_degrees. rewrite Hf. cbn [bind]. now rewrite Hdiv.
Qed.

Lemma to_degrees_of_int_witness :
  Z.abs (-2147483648) < 2 ^ 1023
  /\ exists m e,
       to_degrees (SInt (-2147483648)) = Ok (SFloat (S754_finite true m e)).
Proof.
  split; [reflexivity |].
  exact (to_degrees_of_int (-2147483648) eq_refl).
Defined.

Lemma read_frames_erase (check_list good_list : ref) (file : list Frame) :
  forall st,
  for_each (frame_step check_list good_list) (erase file) st
  = for_each (frame_step check_list good_list) file st.
Proof.
  induction file as [| [name fields |] file IH]; intros st; simpl.
  - reflexivity.
  - destruct (String.eqb name "record") eqn:Hrec; simpl; rewrite ?Hrec.
    + destruct (tally check_list name st) as [st1 | e]; simpl; [| reflexivity].
      destruct (for_each _ fields _) as [[h row] | e]; simpl; auto.
    + destruct (tally check_list name st) as [st1 | e]; simpl; auto.
  - apply IH.
Qed.

(** X6: the decode never looks at the frames that are not data
    messages nor at the fields of the data frames that are not named
    "record": two files that agree on the rest have the same
    outcome. *)
Theorem decode_reads_records_and_names (file file' : list Frame) :
  erase file = erase file' -> fit_to_pandas file = fit_to_pandas file'.
Proof.
  intros H. unfold fit_to_pandas, read_frames. simpl.
  rewrite <- (read_frames_erase _ _ file), <- (read_frames_erase _ _ file').
  now rewrite H.
Qed.

Lemma decode_reads_records_and_names_witness :
  fit_to_pandas (FitOther :: three_records_one_event 1 [mkField "event" (SStr "timer")])
  = fit_to_pandas (three_records_one_event 1 [] ++ [FitOther]).
Proof.
  apply (decode_reads_records_and_names
           (FitOther :: three_records_one_event 1 [mkField "event" (SStr "timer")])
           (three_records_one_event 1 [] ++ [FitOther])).
  reflexivity.
Defined.

(* ================================================================== *)
(** * Properties of the command line *)
(* ================================================================== *)

(** Case analysis on everything a computation inspects. *)
Ltac run_step :=
  match goal with
  | |- context [match ?x with _ => _ end] =>
      lazymatch x with
      | context [match _ with _ => _ end] => fail
      | _ => destruct x eqn:?
      end
  end.

Ltac run := cbn; repeat (run_step; cbn).

(** ** [init_garmin] *)

(** X7: [init_garmin] leaves the Nominal configuration alone, and it
    changes the token file only after a password login that succeeded:
    the file then holds the token of the session it returns. *)
Theorem init_garmin_token_file (sv : services) (w : world) :
  let (r, w') := init_garmin sv w in
  config w' = config w
  /\ (store w' = store w
      \/ exists g email password,
           r = Return (Some g)
           /\ password_login sv email password = Return g
           /\ store w' = TokenFile (dumps g)).
Proof.
  unfold init_garmin, try_except, bindM, read_token_file, lift, ret, emit,
    input, getpass, read_line, write_token_file.
  destruct w as [st cf inp ev].
  run; try (split; [reflexivity | left; reflexivity]);
    (split; [reflexivity | right; eauto 6]).
Qed.

(** X8: [init_garmin] never raises [FileNotFoundError],
    [GarthHTTPError] or [GarminConnectAuthenticationError], and an
    exception it raises leaves the token file as it was.  When it
    returns [None], the token file is as it was and the last thing it
    did was printing the error of the password login; when it returns
    a session, the token file exists. *)
Theorem init_garmin_outcomes (sv : services) (w : world) :
  let (r, w') := init_garmin sv w in
  match r with
  | Raised e => caught_on_token_login e = false /\ store w' = store w
  | Return None =>
      store w' = store w
      /\ exists err done,
           caught_on_password_login err = true
           /\ events w' = done ++ [PrintedError err]
  | Return (Some g) => exists token, store w' = TokenFile token
  end.
Proof.
  unfold init_garmin, try_except, bindM, read_token_file, lift, ret, emit,
    input, getpass, read_line, write_token_file.
  destruct w as [st cf inp ev].
  run; eauto;
    try (split; [reflexivity |]; do 2 eexists; split; [| reflexivity];
         assumption || reflexivity);
    (split; [| reflexivity]);
    match goal with
    | |- caught_on_token_login ?e = false =>
        destruct e; cbn in *; congruence
    end.
Qed.

Lemma init_garmin_stored (sv : services) (w : world) (token : string)
    (g : Session) :
  store w = TokenFile token -> token_login sv token = Return g ->
  init_garmin sv w = (Return (Some g), w).
Proof.
  unfold init_garmin, try_except, bindM, read_token_file, lift, ret.
  now intros -> ->.
Qed.

Lemma init_garmin_returned (sv : services) (w w1 : world) (g : Session) :
  init_garmin sv w = (Return (Some g), w1) ->
  exists token,
    store w1 = TokenFile token
    /\ (token_login sv token = Return g \/ token = dumps g).
Proof.
  unfold init_garmin, try_except, bindM, read_token_file, lift, ret, emit,
    input, getpass, read_line, write_token_file.
  destruct w as [st cf inp ev].
  run; intros [= <- <-]; cbn; eauto.
Qed.

(** X9: after [init_garmin] has returned a session, the token file
    holds a token - the stored one that the service accepted, or the
    one dumped from the new session - and a later run in which the
    service accepts that token returns without asking, printing or
    writing anything. *)
Theorem init_garmin_second_run (sv : services) (w w1 : world) (g : Session) :
  init_garmin sv w = (Return (Some g), w1) ->
  exists token,
    store w1 = TokenFile token
    /\ (token_login sv token = Return g \/ token = dumps g)
    /\ forall g', token_login sv token = Return g' ->
                  init_garmin sv w1 = (Return (Some g'), w1).
Proof.
  intros H. destruct (init_garmin_returned sv w w1 g H) as (token & Hs & Ht).
  exists token. repeat split; [exact Hs | exact Ht |].
  intros g' Hg'. now apply (init_garmin_stored sv w1 token).
Qed.

Lemma init_garmin_second_run_witness :
  init_garmin sample_services (first_run "secret")
  = (Return (Some sample_session), logged_in)
  /\ exists token,
       store logged_in = TokenFile token
       /\ (token_login sample_services token = Return sample_session
           \/ token = dumps sample_session)
       /\ forall g', token_login sample_services token = Return g' ->
                     init_garmin sample_services logged_in
                     = (Return (Some g'), logged_in).
Proof.
  split; [reflexivity |].
  exact (init_garmin_second_run sample_services (first_run "secret")
           logged_in sample_session eq_refl).
Defined.

(** X10: the two [except] clauses differ in [requests]' [HTTPError]:
    raised by the login with the stored token it escapes from
    [init_garmin] before anything is asked; raised by the login with
    the password - which is reached when there is no token file to
    read or the service rejects the stored token with an exception of
    the first clause - it is printed and [init_garmin] returns [None],
    the token file being left as it was. *)
Theorem http_error_is_caught_only_after_password (sv : services) (w : world) :
  (forall token,
     store w = TokenFile token ->
     token_login sv token = Raised HTTPError ->
     init_garmin sv w = (Raised HTTPError, w))
  /\ (forall email password rest,
        (forall token,
           store w = TokenFile token ->
           exists e,
             token_login sv token = Raised e
             /\ caught_on_token_login e = true) ->
        stdin w = email :: password :: rest ->
        password_login sv email password = Raised HTTPError ->
        init_garmin sv w
        = (Return None,
           mkWorld (store w) (config w) rest
             (events w
              ++ [Printed "Please enter your Garmin Connect credentials...";
                  Asked "E-mail: "; AskedSecret "Password: ";
                  PrintedError HTTPError]))).
Proof.
  unfold init_garmin, try_except, bindM, read_token_file, lift, ret, emit,
    input, getpass, read_line, write_token_file.
  destruct w as [st cf inp ev]. cbn. split.
  - intros token -> ->. reflexivity.
  - intros email password rest Htoken -> Hp.
    destruct st as [| | token]; cbn.
    + rewrite Hp. cbn. now rewrite <- !app_assoc.
    + rewrite Hp. cbn. now rewrite <- !app_assoc.
    + destruct (Htoken token eq_refl) as (e & -> & He). cbn. rewrite He. cbn.
      rewrite Hp. cbn. now rewrite <- !app_assoc.
Qed.

(** ** [init_nominal] *)

(** X11: [init_nominal] returns the client of the configured token and
    leaves a configured token alone, without asking; without a
    configured token it asks for one and stores the answer.  It never
    touches the token file.  It raises in two cases only, both without
    a configured token to read: [EOFError] when the question is not
    answered, and [FileNotFoundError] when the answer cannot be stored
    because the directory of the configuration does not exist; the
    configuration is then as it was. *)
Theorem init_nominal_configures_token (w : world) :
  let (r, w') := init_nominal w in
  store w' = store w
  /\ match r with
     | Return client =>
         store w <> NoDirectory
         /\ config w' = Some client
         /\ match config w with
            | Some token => client = token /\ w' = w
            | None => exists rest, stdin w = client :: rest /\ stdin w' = rest
            end
     | Raised e =>
         (store w = NoDirectory \/ config w = None)
         /\ config w' = config w
         /\ match stdin w with
            | [] => e = EOFError
            | _ :: _ => e = FileNotFoundError /\ store w = NoDirectory
            end
     end.
Proof.
  unfold init_nominal, try_except, bindM, get_token, set_token, ret, emit,
    getpass, read_line.
  destruct w as [st cf inp ev].
  run; repeat split; eauto; try congruence.
Qed.

(** ** [cli] and the commands *)

(** X12: a failed Garmin login does not stop the program: when
    [init_garmin] has returned [None], [cli] goes on to [init_nominal],
    and the command - [list] or [push] - then raises [AttributeError]
    without having printed a table or uploaded anything. *)
Theorem failed_login_raises_attribute_error (sv : services)
    (w w1 w2 : world) (client : string) :
  init_garmin sv w = (Return None, w1) ->
  init_nominal w1 = (Return client, w2) ->
  (forall count, main_list sv count w = (Raised AttributeError, w2))
  /\ (forall activity_id,
        main_push sv activity_id w = (Raised AttributeError, w2)).
Proof.
  intros Hg Hn.
  unfold main_list, main_push, cli, bindM. rewrite Hg, Hn.
  split; reflexivity.
Qed.

Lemma failed_login_raises_attribute_error_witness :
  main_list sample_services 10 (first_run "wrong")
  = (Raised AttributeError,
     mkWorld NoFile (Some "nominal-token") []
       [Printed "Please enter your Garmin Connect credentials...";
        Asked "E-mail: "; AskedSecret "Password: ";
        PrintedError GarthHTTPError;
        Printed "Please enter your Nominal token...";
        AskedSecret "Token: "]).
Proof.
  exact (proj1 (failed_login_raises_attribute_error sample_services
                  (first_run "wrong") _ _ "nominal-token" eq_refl eq_refl)
               10).
Defined.

(** ** [list] *)

Lemma append_rows {X Y} (f : X -> result Y) (xs : list X) (acc : list Y) :
  for_each (fun table x => row <- f x ;; Ok (table ++ [row])) xs acc
  = (rows <- map_m f xs ;; Ok (acc ++ rows)).
Proof.
  revert acc. induction xs as [| x xs IH]; intros acc; simpl.
  - now rewrite app_nil_r.
  - destruct (f x) as [row | e]; simpl; [| reflexivity].
    rewrite IH. destruct (map_m f xs) as [rows | e]; simpl; [| reflexivity].
    now rewrite <- app_assoc.
Qed.

Lemma subscript_raise (v : json) (key : string) (e : Py.exn) :
  subscript v key = Raise e -> e = TypeError \/ e = KeyError key.
Proof.
  destruct v; simpl; try (intros [= <-]; now left).
  destruct (dict_get key items); [discriminate | intros [= <-]; now right].
Qed.

Lemma activity_row_ok (activity : json) (row : list json) :
  activity_row activity = Ok row -> List.length row = 4%nat.
Proof.
  unfold activity_row. intros H.
  repeat (apply bind_ok in H; destruct H as (? & _ & H)).
  now injection H as <-.
Qed.

Lemma activity_row_raise (activity : json) (e : Py.exn) :
  activity_row activity = Raise e ->
  e = TypeError \/ exists key, In key activity_keys /\ e = KeyError key.
Proof.
  unfold activity_row, activity_keys. intros H.
  repeat match type of H with
         | bind (subscript ?v ?k) _ = Raise _ =>
             let Hs := fresh "Hs" in
             destruct (subscript v k) eqn:Hs; simpl in H;
             [| injection H as <-; apply subscript_raise in Hs;
                destruct Hs as [-> | ->];
                [now left | right; eexists; split; [| reflexivity];
                            simpl; tauto]]
         end.
  discriminate H.
Qed.

Lemma map_m_rows {X Y} (f : X -> result Y) (xs : list X) :
  match map_m f xs with
  | Ok ys => List.length ys = List.length xs
  | Raise e => exists x, In x xs /\ f x = Raise e
  end.
Proof.
  induction xs as [| x xs IH]; simpl; [reflexivity |].
  destruct (f x) as [y | e] eqn:Hx; simpl; [| eauto].
  destruct (map_m f xs) as [ys | e]; simpl.
  - now rewrite IH.
  - destruct IH as (x' & Hin & Hf). eauto.
Qed.

(** X13: [list] prints all or nothing.  When every activity has the
    keys that lines 90-93 read, it prints one table - the header row
    and one row of four cells per activity, in the order of the
    activities - and does nothing else; otherwise it raises the
    exception of the first activity that fails, a [KeyError] for one
    of the keys or a [TypeError], and prints nothing. *)
Theorem list_prints_all_or_nothing (obj : Clients) (g : Session)
    (count : Z) (activities : list json) (w : world) :
  garmin obj = Some g ->
  get_activities g 0 count = Return activities ->
  match map_m activity_row activities with
  | Ok rows =>
      list_command obj count w
      = (Return tt,
         mkWorld (store w) (config w) (stdin w)
                 (events w ++ [PrintedTable (table_header :: rows)]))
      /\ List.length rows = List.length activities
      /\ Forall2 (fun activity row => activity_row activity = Ok row)
                 activities rows
      /\ Forall (fun row => List.length row = 4%nat) rows
  | Raise e =>
      list_command obj count w = (Raised (Builtin e), w)
      /\ (e = TypeError
          \/ exists key, In key activity_keys /\ e = KeyError key)
  end.
Proof.
  intros Hobj Hact.
  unfold list_command, garmin_attr, bindM, lift, lift_py, emit, ret.
  rewrite Hobj, Hact, append_rows.
  pose proof (map_m_rows activity_row activities) as Hrows.
  destruct (map_m activity_row activities) as [rows | e] eqn:Hm; simpl.
  - pose proof (map_m_forall2 _ _ _ Hm) as HF.
    repeat split; auto.
    clear Hm Hrows Hact. induction HF; constructor; auto.
    eapply activity_row_ok; eassumption.
  - split; [reflexivity |].
    destruct Hrows as (x & _ & Hx). now apply activity_row_raise in Hx.
Qed.

Lemma list_prints_all_or_nothing_witness :
  list_command (mkClients (Some sample_session) "nominal-token") 10
               (mkWorld (TokenFile "token-1") (Some "nominal-token") [] [])
  = (Return tt,
     mkWorld (TokenFile "token-1") (Some "nominal-token") []
       [PrintedTable
          [table_header;
           [JStr "2024-05-01 07:00:00"; JStr "Morning Run"; JStr "running";
            JInt 42]]]).
Proof.
  exact (proj1 (list_prints_all_or_nothing
                  (mkClients (Some sample_session) "nominal-token")
                  sample_session 10 _
                  (mkWorld (TokenFile "token-1") (Some "nominal-token") [] [])
                  eq_refl eq_refl)).
Defined.

(** ** [push] *)

(** The loop of lines 110-119. *)
Lemma push_loop (sv : services) (obj : Clients) (g : Session)
    (activity_id : string) (data : list (list Frame)) :
  garmin obj = Some g ->
  forall w,
  let (r, w') :=
    for_m data (fun file =>
      df <~ lift_py (fit_to_pandas file) ;;
      g' <~ garmin_attr obj ;;
      let name := dataset_name g' activity_id in
      lift (upload_pandas sv df name) ;;
      emit (Uploaded df name)) w in
  store w' = store w /\ config w' = config w /\ stdin w' = stdin w
  /\ exists done rest evs,
       data = done ++ rest
       /\ events w' = events w ++ evs
       /\ Forall2 (uploaded sv (dataset_name g activity_id)) done evs
       /\ match r with
          | Return _ => rest = []
          | Raised e =>
              exists bad rest',
                rest = bad :: rest'
                /\ member_fails sv (dataset_name g activity_id) bad e
          end.
Proof.
  intros Hobj. induction data as [| file data IH]; intros w.
  - cbn. repeat split. exists [], [], [].
    split; [reflexivity |]. split; [symmetry; apply app_nil_r |].
    split; [constructor | reflexivity].
  - cbn [for_m]. set (loop := for_m data _) in *.
    unfold bindM at 1. unfold bindM at 1, lift_py at 1.
    destruct (fit_to_pandas file) as [df | e] eqn:Hdf.
    + unfold garmin_attr, bindM, lift, emit, ret. rewrite Hobj.
      destruct (upload_pandas sv df (dataset_name g activity_id))
        as [[] | e] eqn:Hup.
      * match goal with
        | |- context [loop ?w1] =>
            specialize (IH w1); destruct (loop w1) as [r w']
        end.
        cbn [store config stdin events] in IH.
        destruct IH as (Hs & Hc & Hi & done & rest & evs & -> & He & HF & Hr).
        repeat split; auto.
        exists (file :: done), rest,
          (Uploaded df (dataset_name g activity_id) :: evs).
        repeat split; auto.
        -- rewrite He, <- app_assoc. reflexivity.
        -- constructor; [| exact HF]. exists df. auto.
      * repeat split. exists [], (file :: data), [].
        rewrite app_nil_r. split; [reflexivity |]. split; [reflexivity |].
        split; [constructor |].
        exists file, data. split; [reflexivity |]. right. eauto.
    + repeat split. exists [], (file :: data), [].
      rewrite app_nil_r. split; [reflexivity |]. split; [reflexivity |].
      split; [constructor |].
      exists file, data. split; [reflexivity |]. left. eauto.
Qed.

Lemma push_eq (sv : services) (obj : Clients) (g : Session)
    (activity_id : string) (data : list (list Frame)) (w : world) :
  garmin obj = Some g ->
  download_activity g activity_id = Return data ->
  push sv obj activity_id w
  = for_m data (fun file =>
      df <~ lift_py (fit_to_pandas file) ;;
      g' <~ garmin_attr obj ;;
      let name := dataset_name g' activity_id in
      lift (upload_pandas sv df name) ;;
      emit (Uploaded df name)) w.
Proof.
  intros Hobj Hdata.
  unfold push, bindM at 1, garmin_attr at 1. rewrite Hobj.
  unfold ret at 1, bindM at 1, lift at 1. now rewrite Hdata.
Qed.

(** X14: [push] uploads the members of the archive one by one, in the
    order of the archive and all under the same dataset name, and stops
    at the first member that cannot be decoded or uploaded: the uploads
    made before stay made, the exception of that member is raised and
    the later members are not looked at.  It returns only when every
    member has been uploaded, and it changes nothing but the
    uploads. *)
Theorem push_uploads_a_prefix (sv : services) (obj : Clients) (g : Session)
    (activity_id : string) (data : list (list Frame)) (w : world) :
  garmin obj = Some g ->
  download_activity g activity_id = Return data ->
  let (r, w') := push sv obj activity_id w in
  store w' = store w /\ config w' = config w /\ stdin w' = stdin w
  /\ exists done rest evs,
       data = done ++ rest
       /\ events w' = events w ++ evs
       /\ Forall2 (uploaded sv (dataset_name g activity_id)) done evs
       /\ match r with
          | Return _ => rest = []
          | Raised e =>
              exists bad rest',
                rest = bad :: rest'
                /\ member_fails sv (dataset_name g activity_id) bad e
          end.
Proof.
  intros Hobj Hdata.
  rewrite (push_eq sv obj g activity_id data w Hobj Hdata).
  apply push_loop, Hobj.
Qed.

Lemma push_uploads_a_prefix_witness :
  let (r, w') :=
    push sample_services (mkClients (Some sample_session) "nominal-token")
         "123" (mkWorld (TokenFile "token-1") (Some "nominal-token") [] []) in
  store w' = TokenFile "token-1" /\ config w' = Some "nominal-token"
  /\ stdin w' = []
  /\ exists done rest evs,
       [three_records_one_event 3 []; indoor_run] = done ++ rest
       /\ events w' = [] ++ evs
       /\ Forall2 (uploaded sample_services (dataset_name sample_session "123"))
                  done evs
       /\ match r with
          | Return _ => rest = []
          | Raised e =>
              exists bad rest',
                rest = bad :: rest'
                /\ member_fails sample_services
                     (dataset_name sample_session "123") bad e
          end.
Proof.
  exact (push_uploads_a_prefix sample_services
           (mkClients (Some sample_session) "nominal-token") sample_session
           "123" _ (mkWorld (TokenFile "token-1") (Some "nominal-token") [] [])
           eq_refl eq_refl).
Defined.

Lemma Forall2_In_l {X Y} (R : X -> Y -> Prop) (l : list X) (l' : list Y) :
  Forall2 R l l' -> forall x, In x l -> exists y, R x y.
Proof.
  induction 1 as [| x0 y0 l l' Hxy _ IH]; intros x; simpl; [tauto |].
  intros [<- | Hin]; eauto.
Qed.

(** The decode returns a table only for a file in which some record
    frame has a field "position_lat" and some record frame has a field
    "position_long". *)
Lemma decode_needs_positions (file : list Frame) (t : Pd.DataFrame) :
  fit_to_pandas file = Ok t ->
  forall c, is_position c = true ->
  exists fields,
    In fields (records file) /\ In c (map field_name fields).
Proof.
  intros H c Hc. pose proof (fit_to_pandas_ok _ _ H) as (_ & _ & _ & Hn).
  apply unit_normalizer_ok in Hn. destruct Hn as (_ & Hcols & Hlat & Hlong & _).
  assert (Hin : In c (Pd.columns t)).
  { rewrite Hcols. unfold is_position in Hc. apply orb_true_iff in Hc.
    destruct Hc as [Hc | Hc]; apply String.eqb_eq in Hc; now subst. }
  apply (decoded_column_In file t c H) in Hin.
  destruct Hin as (fields & Hf & Hn' & _). eauto.
Qed.

(** X15: [push] returns only for an archive in which every member has
    a record frame with a field "position_lat" and a record frame with
    a field "position_long": an activity recorded without positions
    cannot be pushed. *)
Theorem push_needs_positions (sv : services) (obj : Clients) (g : Session)
    (activity_id : string) (data : list (list Frame)) (w w' : world) :
  garmin obj = Some g ->
  download_activity g activity_id = Return data ->
  push sv obj activity_id w = (Return tt, w') ->
  forall file, In file data ->
  forall c, is_position c = true ->
  exists fields,
    In fields (records file) /\ In c (map field_name fields).
Proof.
  intros Hobj Hdata Hpush file Hin c Hc.
  rewrite (push_eq sv obj g activity_id data w Hobj Hdata) in Hpush.
  pose proof (push_loop sv obj g activity_id data Hobj w) as Hloop.
  rewrite Hpush in Hloop.
  destruct Hloop as (_ & _ & _ & done & rest & evs & -> & _ & HF & ->).
  rewrite app_nil_r in Hin.
  destruct (Forall2_In_l _ _ _ HF file Hin) as (ev & df & Hdf & _).
  exact (decode_needs_positions file df Hdf c Hc).
Qed.

Lemma push_needs_positions_witness :
  exists fields,
    In fields (records sparse_records)
    /\ In "position_long" (map field_name fields).
Proof.
  apply (push_needs_positions sample_services
           (mkClients (Some gps_session) "nominal-token") gps_session "123"
           [three_records_one_event 3 []; sparse_records]
           (mkWorld (TokenFile "token-2") (Some "nominal-token") [] [])
           (snd (push sample_services
                   (mkClients (Some gps_session) "nominal-token") "123"
                   (mkWorld (TokenFile "token-2") (Some "nominal-token") [] [])))
           eq_refl eq_refl eq_refl sparse_records).
  - simpl. tauto.
  - reflexivity.
Defined.

(** ** The dataset name *)

Lemma replace_length (old new : ascii) (s : string) :
  String.length (replace old new s) = String.length s.
Proof. induction s as [| c s IH]; simpl; congruence. Qed.

Lemma replace_get (old new : ascii) (s : string) (i : nat) :
  String.get i (replace old new s)
  = option_map (fun c => if Ascii.eqb c old then new else c) (String.get i s).
Proof.
  revert i. induction s as [| c s IH]; intros [| i]; simpl; auto.
Qed.

Lemma replace_absent (old new : ascii) (s : string) :
  (forall i, String.get i s <> Some old) -> replace old new s = s.
Proof.
  induction s as [| c s IH]; simpl; intros H; [reflexivity |].
  destruct (Ascii.eqb_spec c old) as [-> | _].
  - now specialize (H 0%nat).
  - f_equal. apply IH. intros i. exact (H (S i)).
Qed.

(** X16: the dataset name of line 113 is the full name of the account,
    every space of it turned into an underscore and nothing else
    changed, then an underscore, then the activity id as it was given;
    an account without a full name gives "None". *)
Theorem dataset_name_shape (g : Session) (activity_id : string) :
  exists prefix,
    dataset_name g activity_id = (prefix ++ "_" ++ activity_id)%string
    /\ String.length prefix = String.length (str (full_name g))
    /\ (forall i, String.get i prefix <> Some " "%char)
    /\ (forall i c, String.get i (str (full_name g)) = Some c ->
                    c <> " "%char -> String.get i prefix = Some c)
    /\ (forall i, String.get i (str (full_name g)) = Some " "%char ->
                  String.get i prefix = Some "_"%char)
    /\ (full_name g = None -> prefix = "None").
Proof.
  exists (replace " " "_" (str (full_name g))).
  split; [reflexivity |]. split; [apply replace_length |].
  split; [| split; [| split]].
  - intros i. rewrite replace_get.
    destruct (String.get i (str (full_name g))) as [c |]; simpl;
      [| discriminate].
    destruct (Ascii.eqb_spec c " "); [discriminate | congruence].
  - intros i c Hc Hne. rewrite replace_get, Hc. simpl.
    destruct (Ascii.eqb_spec c " "); [contradiction | reflexivity].
  - intros i Hc. rewrite replace_get, Hc. reflexivity.
  - intros ->. reflexivity.
Qed.

Lemma http_error_is_caught_only_after_password_witness :
  init_garmin failing_services
    (mkWorld (TokenFile "token-1") None ["ada@example.org"; "secret"] [])
  = (Raised HTTPError,
     mkWorld (TokenFile "token-1") None ["ada@example.org"; "secret"] [])
  /\ init_garmin expired_services stale_token
     = (Return None,
        mkWorld (TokenFile "token-0") None []
          [Printed "Please enter your Garmin Connect credentials...";
           Asked "E-mail: "; AskedSecret "Password: ";
           PrintedError HTTPError]).
Proof.
  split.
  - exact (proj1 (http_error_is_caught_only_after_password failing_services
                    (mkWorld (TokenFile "token-1") None
                             ["ada@example.org"; "secret"] []))
                 "token-1" eq_refl eq_refl).
  - apply (proj2 (http_error_is_caught_only_after_password expired_services
                    stale_token)
                 "ada@example.org" "secret" []).
    + intros token _. exists GarminConnectAuthenticationError.
      split; reflexivity.
    + reflexivity.
    + reflexivity.
Defined.
